(** * mock-db-router: request matching and response materialization

    A shallow embedding of the Go program (the body-aware server and the
    earlier path/method-only [main.go]) together with the parts of the Go
    standard library its handlers call: [strings.Split], [strings.SplitN],
    [strings.TrimSpace], [textproto.CanonicalMIMEHeaderKey], [http.Header],
    [http.Error], [io.ReadAll], [sync.Once] and the validity test performed by
    [json.Unmarshal] into an [interface{}].

    Go strings are byte sequences: they are modelled as [string], one [ascii]
    per byte.  Go maps are modelled as [gmap]. *)

From Stdlib Require Import ZArith Lia Ascii String.
From stdpp Require Import gmap strings list fin_maps.

Local Open Scope string_scope.
Local Open Scope Z_scope.

(* ===================================================================== *)
(** ** Go [strings] package                                               *)
(* ===================================================================== *)

Module GoStrings.

(** A string given by its byte values. *)
Definition bytes (l : list nat) : string :=
  foldr (fun n s => String (ascii_of_nat n) s) EmptyString l.

Definition byte_is (c : ascii) (n : nat) : bool := Nat.eqb (nat_of_ascii c) n.

(** [strings.Split(s, sep)] for a one-byte separator: always at least one
    piece, and one more piece than there are separators. *)
Fixpoint Split (sep : ascii) (s : string) : list string :=
  match s with
  | EmptyString => [EmptyString]
  | String c s' =>
      if Ascii.eqb c sep then EmptyString :: Split sep s'
      else match Split sep s' with
           | h :: t => String c h :: t
           | [] => [String c EmptyString]
           end
  end.

(** [strings.Cut]-like search for the first separator byte. *)
Fixpoint cut (sep : ascii) (s : string) : option (string * string) :=
  match s with
  | EmptyString => None
  | String c s' =>
      if Ascii.eqb c sep then Some (EmptyString, s')
      else match cut sep s' with
           | Some (a, b) => Some (String c a, b)
           | None => None
           end
  end.

(** [strings.SplitN(s, sep, 2)] for a one-byte separator: the text before
    the first separator and everything after it, or the string alone. *)
Definition SplitN2 (sep : ascii) (s : string) : list string :=
  match cut sep s with
  | Some (a, b) => [a; b]
  | None => [s]
  end.

(** The six ASCII bytes of Go's [asciiSpace] table. *)
Definition asciiSpace (c : ascii) : bool :=
  let n := nat_of_ascii c in
  (Nat.eqb n 9 || Nat.eqb n 10 || Nat.eqb n 11 || Nat.eqb n 12
   || Nat.eqb n 13 || Nat.eqb n 32)%bool.

(** UTF-8 encodings of the non-ASCII runes of [unicode.IsSpace]:
    U+0085 and U+00A0 take two bytes. *)
Definition space2 (a b : ascii) : bool :=
  (byte_is a 194 && (byte_is b 133 || byte_is b 160))%bool.

(** U+1680, U+2000..U+200A, U+2028, U+2029, U+202F, U+205F and U+3000 take
    three bytes. *)
Definition space3 (a b c : ascii) : bool :=
  let nc := nat_of_ascii c in
  ((byte_is a 225 && byte_is b 154 && byte_is c 128)
   || (byte_is a 226 && byte_is b 128 &&
       ((Nat.leb 128 nc && Nat.leb nc 138) || byte_is c 168 || byte_is c 169
        || byte_is c 175))
   || (byte_is a 226 && byte_is b 129 && byte_is c 159)
   || (byte_is a 227 && byte_is b 128 && byte_is c 128))%bool.

(** [strings.TrimLeftFunc(s, unicode.IsSpace)]: drop leading white-space
    runes.  A byte sequence that is not the encoding of a white-space rune
    (including invalid UTF-8, decoded as U+FFFD) stops the scan. *)
Fixpoint TrimLeftSpace (s : string) : string :=
  match s with
  | EmptyString => s
  | String a r1 =>
      if asciiSpace a then TrimLeftSpace r1
      else match r1 with
           | EmptyString => s
           | String b r2 =>
               if space2 a b then TrimLeftSpace r2
               else match r2 with
                    | EmptyString => s
                    | String c r3 =>
                        if space3 a b c then TrimLeftSpace r3 else s
                    end
           end
  end.

(** The same scan from the end, on the reversed byte sequence: the last
    rune is looked for behind the last byte, so the encodings are matched
    backwards. *)
Fixpoint TrimLeftSpaceRev (s : string) : string :=
  match s with
  | EmptyString => s
  | String a r1 =>
      if asciiSpace a then TrimLeftSpaceRev r1
      else match r1 with
           | EmptyString => s
           | String b r2 =>
               if space2 b a then TrimLeftSpaceRev r2
               else match r2 with
                    | EmptyString => s
                    | String c r3 =>
                        if space3 c b a then TrimLeftSpaceRev r3 else s
                    end
           end
  end.

Definition TrimRightSpace (s : string) : string :=
  String.rev (TrimLeftSpaceRev (String.rev s)).

(** [strings.TrimSpace]. *)
Definition TrimSpace (s : string) : string :=
  TrimRightSpace (TrimLeftSpace s).

End GoStrings.

(* ===================================================================== *)
(** ** Go [encoding/json]: what [json.Unmarshal(data, &temp)] accepts      *)
(* ===================================================================== *)

Module GoJSON.

(** The scanner of [encoding/json] is a state machine fed one byte at a
    time; [step_fn] names its step functions. *)
Inductive step_fn :=
  | stateBeginValueOrEmpty | stateBeginValue
  | stateBeginStringOrEmpty | stateBeginString
  | stateEndValue | stateEndTop
  | stateInString | stateInStringEsc
  | stateInStringEscU | stateInStringEscU1
  | stateInStringEscU12 | stateInStringEscU123
  | stateNeg | state1 | state0 | stateDot | stateDot0
  | stateE | stateESign | stateE0
  | stateT | stateTr | stateTru
  | stateF | stateFa | stateFal | stateFals
  | stateN | stateNu | stateNul
  | stateError.

Inductive parse_state := parseObjectKey | parseObjectValue | parseArrayValue.

(** The scanner: the next step function, whether the top-level value has
    ended, the stack of open composites (innermost first) and whether an
    error has been recorded. *)
Record scanner := mkScanner {
  step : step_fn;
  endTop : bool;
  parseState : list parse_state;
  err : bool
}.

Definition maxNestingDepth : Z := 10000.

(** The byte 0x22, the JSON string delimiter. *)
Definition dquote : ascii := "034"%char.

(** [scanner.reset]. *)
Definition reset : scanner := mkScanner stateBeginValue false [] false.

(** [scanner.error]: record the error and make every later step fail. *)
Definition error (s : scanner) : scanner :=
  mkScanner stateError (endTop s) (parseState s) true.

Definition goto (s : scanner) (f : step_fn) : scanner :=
  mkScanner f (endTop s) (parseState s) (err s).

Definition isSpace (c : ascii) : bool :=
  let n := nat_of_ascii c in
  (Nat.eqb n 32 || Nat.eqb n 9 || Nat.eqb n 13 || Nat.eqb n 10)%bool.

Definition isDigit (c : ascii) : bool :=
  let n := nat_of_ascii c in (Nat.leb 48 n && Nat.leb n 57)%bool.

Definition isDigit19 (c : ascii) : bool :=
  let n := nat_of_ascii c in (Nat.leb 49 n && Nat.leb n 57)%bool.

Definition isHex (c : ascii) : bool :=
  let n := nat_of_ascii c in
  (isDigit c || (Nat.leb 97 n && Nat.leb n 102)
   || (Nat.leb 65 n && Nat.leb n 70))%bool.

(** [scanner.pushParseState]: entering an object or array beyond the
    nesting limit is an error. *)
Definition pushParseState (s : scanner) (p : parse_state) (next : step_fn)
  : scanner :=
  let st := p :: parseState s in
  if Z.of_nat (length st) <=? maxNestingDepth
  then mkScanner next (endTop s) st (err s)
  else error (mkScanner next (endTop s) st (err s)).

(** [scanner.popParseState]. *)
Definition popParseState (s : scanner) : scanner :=
  match tail (parseState s) with
  | [] => mkScanner stateEndTop true [] (err s)
  | st => mkScanner stateEndValue (endTop s) st (err s)
  end.

Definition replaceTop (s : scanner) (p : parse_state) : scanner :=
  mkScanner (step s) (endTop s) (p :: tail (parseState s)) (err s).

(** [stateEndTop]: only space may follow the top-level value. *)
Definition doEndTop (s : scanner) (c : ascii) : scanner :=
  if isSpace c then s else error s.

(** [stateEndValue]: after a value, look at the innermost open composite. *)
Definition doEndValue (s : scanner) (c : ascii) : scanner :=
  match parseState s with
  | [] => doEndTop (mkScanner stateEndTop true [] (err s)) c
  | ps :: _ =>
      if isSpace c then goto s stateEndValue
      else match ps with
           | parseObjectKey =>
               if Ascii.eqb c ":"
               then goto (replaceTop s parseObjectValue) stateBeginValue
               else error s
           | parseObjectValue =>
               if Ascii.eqb c ","
               then goto (replaceTop s parseObjectKey) stateBeginString
               else if Ascii.eqb c "}" then popParseState s
               else error s
           | parseArrayValue =>
               if Ascii.eqb c "," then goto s stateBeginValue
               else if Ascii.eqb c "]" then popParseState s
               else error s
           end
  end.

(** [stateBeginValue]. *)
Definition doBeginValue (s : scanner) (c : ascii) : scanner :=
  if isSpace c then s
  else if Ascii.eqb c "{" then pushParseState s parseObjectKey stateBeginStringOrEmpty
  else if Ascii.eqb c "[" then pushParseState s parseArrayValue stateBeginValueOrEmpty
  else if Ascii.eqb c dquote then goto s stateInString
  else if Ascii.eqb c "-" then goto s stateNeg
  else if Ascii.eqb c "0" then goto s state0
  else if Ascii.eqb c "t" then goto s stateT
  else if Ascii.eqb c "f" then goto s stateF
  else if Ascii.eqb c "n" then goto s stateN
  else if isDigit19 c then goto s state1
  else error s.

(** [stateBeginString]. *)
Definition doBeginString (s : scanner) (c : ascii) : scanner :=
  if isSpace c then s
  else if Ascii.eqb c dquote then goto s stateInString
  else error s.

Definition doState0 (s : scanner) (c : ascii) : scanner :=
  if Ascii.eqb c "." then goto s stateDot
  else if (Ascii.eqb c "e" || Ascii.eqb c "E")%bool then goto s stateE
  else doEndValue s c.

Definition doESign (s : scanner) (c : ascii) : scanner :=
  if isDigit c then goto s stateE0 else error s.

Definition expect (s : scanner) (c want : ascii) (next : step_fn) : scanner :=
  if Ascii.eqb c want then goto s next else error s.

(** One call of [s.step(s, c)]. *)
Definition scan_step (s : scanner) (c : ascii) : scanner :=
  match step s with
  | stateBeginValueOrEmpty =>
      if isSpace c then s
      else if Ascii.eqb c "]" then doEndValue s c
      else doBeginValue s c
  | stateBeginValue => doBeginValue s c
  | stateBeginStringOrEmpty =>
      if isSpace c then s
      else if Ascii.eqb c "}"
      then doEndValue (replaceTop s parseObjectValue) c
      else doBeginString s c
  | stateBeginString => doBeginString s c
  | stateEndValue => doEndValue s c
  | stateEndTop => doEndTop s c
  | stateInString =>
      if Ascii.eqb c dquote then goto s stateEndValue
      else if Ascii.eqb c "\" then goto s stateInStringEsc
      else if Nat.ltb (nat_of_ascii c) 32 then error s
      else s
  | stateInStringEsc =>
      if (Ascii.eqb c "b" || Ascii.eqb c "f" || Ascii.eqb c "n"
          || Ascii.eqb c "r" || Ascii.eqb c "t" || Ascii.eqb c "\"
          || Ascii.eqb c "/" || Ascii.eqb c dquote)%bool
      then goto s stateInString
      else if Ascii.eqb c "u" then goto s stateInStringEscU
      else error s
  | stateInStringEscU => if isHex c then goto s stateInStringEscU1 else error s
  | stateInStringEscU1 => if isHex c then goto s stateInStringEscU12 else error s
  | stateInStringEscU12 => if isHex c then goto s stateInStringEscU123 else error s
  | stateInStringEscU123 => if isHex c then goto s stateInString else error s
  | stateNeg =>
      if Ascii.eqb c "0" then goto s state0
      else if isDigit19 c then goto s state1
      else error s
  | state1 => if isDigit c then s else doState0 s c
  | state0 => doState0 s c
  | stateDot => if isDigit c then goto s stateDot0 else error s
  | stateDot0 =>
      if isDigit c then s
      else if (Ascii.eqb c "e" || Ascii.eqb c "E")%bool then goto s stateE
      else doEndValue s c
  | stateE =>
      if (Ascii.eqb c "+" || Ascii.eqb c "-")%bool then goto s stateESign
      else doESign s c
  | stateESign => doESign s c
  | stateE0 => if isDigit c then s else doEndValue s c
  | stateT => expect s c "r" stateTr
  | stateTr => expect s c "u" stateTru
  | stateTru => expect s c "e" stateEndValue
  | stateF => expect s c "a" stateFa
  | stateFa => expect s c "l" stateFal
  | stateFal => expect s c "s" stateFals
  | stateFals => expect s c "e" stateEndValue
  | stateN => expect s c "u" stateNu
  | stateNu => expect s c "l" stateNul
  | stateNul => expect s c "l" stateEndValue
  | stateError => error s
  end.

(** The loop of [checkValid]: feed every byte to the scanner. *)
Fixpoint scan_all (s : scanner) (data : string) : scanner :=
  match data with
  | EmptyString => s
  | String c rest => scan_all (scan_step s c) rest
  end.

(** [scanner.eof]: the input may end only where a top-level value has
    ended, possibly after one more (space) step. *)
Definition eof_ok (s : scanner) : bool :=
  if err s then false
  else if endTop s then true
  else endTop (scan_step s " ").

(** [checkValid(data, scan) == nil]. *)
Definition checkValid (data : string) : bool := eof_ok (scan_all reset data).

(** *** Number literals

    Decoding into an [interface{}] converts every number literal with
    [strconv.ParseFloat(s, 64)] and saves the error when the literal is out
    of range, so [Unmarshal] fails although the text is well formed. *)

(** Where the walk over a well-formed text is: between tokens, inside a
    string (after a backslash or not) or inside a number literal. *)
Inductive lit_pos :=
  | Outside | InStr | InStrEsc | InNum (acc : string).

Definition isNumberByte (c : ascii) : bool :=
  (isDigit c || Ascii.eqb c "." || Ascii.eqb c "e" || Ascii.eqb c "E"
   || Ascii.eqb c "+" || Ascii.eqb c "-")%bool.

Definition outside_step (c : ascii) : lit_pos :=
  if Ascii.eqb c dquote then InStr
  else if (isDigit c || Ascii.eqb c "-")%bool then InNum (String c EmptyString)
  else Outside.

(** The number literals of a well-formed JSON text, in order. *)
Fixpoint number_literals_from (p : lit_pos) (data : string) : list string :=
  match data with
  | EmptyString => match p with InNum acc => [acc] | _ => [] end
  | String c rest =>
      match p with
      | Outside => number_literals_from (outside_step c) rest
      | InStr =>
          if Ascii.eqb c dquote then number_literals_from Outside rest
          else if Ascii.eqb c "\" then number_literals_from InStrEsc rest
          else number_literals_from InStr rest
      | InStrEsc => number_literals_from InStr rest
      | InNum acc =>
          if isNumberByte c
          then number_literals_from (InNum (acc ++ String c EmptyString)) rest
          else acc :: number_literals_from (outside_step c) rest
      end
  end.

Definition number_literals (data : string) : list string :=
  number_literals_from Outside data.

(** The digits at the front of a string, and the rest. *)
Fixpoint take_digits (s : string) : string * string :=
  match s with
  | String c rest =>
      if isDigit c
      then let '(d, r) := take_digits rest in (String c d, r)
      else (EmptyString, s)
  | EmptyString => (EmptyString, EmptyString)
  end.

Definition digit_val (c : ascii) : Z := Z.of_nat (nat_of_ascii c) - 48.

Fixpoint decimal_from (acc : Z) (s : string) : Z :=
  match s with
  | EmptyString => acc
  | String c rest => decimal_from (10 * acc + digit_val c) rest
  end.

Definition decimal (s : string) : Z := decimal_from 0 s.

(** A JSON number literal as (mantissa, decimal exponent): its magnitude
    is [mantissa * 10 ^ exponent]. *)
Definition number_parts (lit : string) : Z * Z :=
  let unsigned :=
    match lit with
    | String c rest => if Ascii.eqb c "-" then rest else lit
    | EmptyString => lit
    end in
  let '(ip, r1) := take_digits unsigned in
  let '(fp, r2) :=
    match r1 with
    | String c rest => if Ascii.eqb c "." then take_digits rest else (EmptyString, r1)
    | EmptyString => (EmptyString, r1)
    end in
  let e :=
    match r2 with
    | String c rest =>
        if (Ascii.eqb c "e" || Ascii.eqb c "E")%bool then
          match rest with
          | String sg ds =>
              if Ascii.eqb sg "-" then - decimal (fst (take_digits ds))
              else if Ascii.eqb sg "+" then decimal (fst (take_digits ds))
              else decimal (fst (take_digits rest))
          | EmptyString => 0
          end
        else 0
    | EmptyString => 0
    end in
  (decimal (ip ++ fp), e - Z.of_nat (String.length fp)).

(** The least magnitude that rounds (to nearest, ties to even) beyond the
    largest float64, [2^1024 - 2^971]: half an ulp above it. *)
Definition float64_overflow_threshold : Z := 2 ^ 1024 - 2 ^ 970.

(** [strconv.ParseFloat(lit, 64)] returns no range error: the decimal value
    rounds to a finite float64 (values too small round to zero without an
    error).  This follows the documented contract of [ParseFloat]. *)
Definition ParseFloat_ok (lit : string) : bool :=
  let '(m, k) := number_parts lit in
  if 0 <=? k then m * 10 ^ k <? float64_overflow_threshold
  else m <? float64_overflow_threshold * 10 ^ (- k).

(** [json.Unmarshal([]byte(data), &temp) == nil] for [temp interface{}]:
    the text is well formed and every number converts to a float64. *)
Definition Unmarshal_ok (data : string) : bool :=
  (checkValid data && forallb ParseFloat_ok (number_literals data))%bool.

End GoJSON.

(* ===================================================================== *)
(** ** Go [net/textproto], [net/http] and [io]                            *)
(* ===================================================================== *)

Module GoHTTP.

(** [validHeaderFieldByte]: the token bytes of RFC 7230. *)
Definition validHeaderFieldByte (c : ascii) : bool :=
  let n := nat_of_ascii c in
  ((Nat.leb 48 n && Nat.leb n 57) || (Nat.leb 65 n && Nat.leb n 90)
   || (Nat.leb 97 n && Nat.leb n 122)
   || existsb (Nat.eqb n) [33; 35; 36; 37; 38; 39; 42; 43; 45; 46; 94; 95; 96; 124; 126]%nat)%bool.

Definition isLower (c : ascii) : bool :=
  let n := nat_of_ascii c in (Nat.leb 97 n && Nat.leb n 122)%bool.

Definition isUpper (c : ascii) : bool :=
  let n := nat_of_ascii c in (Nat.leb 65 n && Nat.leb n 90)%bool.

(** The casing loop of [canonicalMIMEHeaderKey]: upper case at the start
    and after each dash, lower case elsewhere. *)
Fixpoint canonical_case (upper : bool) (s : string) : string :=
  match s with
  | EmptyString => EmptyString
  | String c rest =>
      let c' :=
        if (upper && isLower c)%bool then ascii_of_nat (nat_of_ascii c - 32)
        else if (negb upper && isUpper c)%bool then ascii_of_nat (nat_of_ascii c + 32)
        else c in
      String c' (canonical_case (Ascii.eqb c' "-") rest)
  end.

Fixpoint all_bytes (f : ascii -> bool) (s : string) : bool :=
  match s with
  | EmptyString => true
  | String c rest => (f c && all_bytes f rest)%bool
  end.

(** [textproto.CanonicalMIMEHeaderKey]: a key holding a byte that is not a
    token byte is returned unchanged. *)
Definition CanonicalMIMEHeaderKey (s : string) : string :=
  if all_bytes validHeaderFieldByte s then canonical_case true s else s.

(** [http.Header] is [map[string][]string]. *)
Abbreviation Header := (gmap string (list string)).

(** [Header.Set]. *)
Definition Header_Set (key value : string) (h : Header) : Header :=
  <[CanonicalMIMEHeaderKey key := [value]]> h.

(** [Header.Get]: the first value of the key, or the empty string. *)
Definition Header_Get (key : string) (h : Header) : string :=
  match h !! CanonicalMIMEHeaderKey key with
  | Some (v :: _) => v
  | _ => EmptyString
  end.

(** An [http.ResponseWriter], seen through the calls the handlers make:
    the header map, the status passed to the first [WriteHeader] that was
    accepted, the bytes passed to [Write], and whether a call panicked.
    What a transport does with them afterwards (no body on the wire for
    HEAD, 204 or 304, an informational status sent as an interim response)
    belongs to the implementation behind the interface. *)
Record ResponseWriter := mkResponseWriter {
  header : Header;
  wroteHeader : option Z;
  written : string;
  panicked : bool
}.

Definition fresh_writer : ResponseWriter :=
  mkResponseWriter ∅ None EmptyString false.

Definition update_header (f : Header -> Header) (w : ResponseWriter)
  : ResponseWriter :=
  mkResponseWriter (f (header w)) (wroteHeader w) (written w) (panicked w).

(** [checkWriteHeaderCode]: the writers of [net/http] and [httptest]
    refuse a status outside 100..999 with a panic. *)
Definition checkWriteHeaderCode (code : Z) : bool :=
  ((100 <=? code) && (code <=? 999))%bool.

(** The call [w.WriteHeader(code)] panics: no header was written yet and
    the status is refused. *)
Definition WriteHeader_panics (code : Z) (w : ResponseWriter) : bool :=
  match wroteHeader w with
  | Some _ => false
  | None => negb (checkWriteHeaderCode code)
  end.

(** [w.WriteHeader(code)]: a call after the header was written does
    nothing; otherwise the status is checked, and the first accepted call
    fixes it. *)
Definition WriteHeader (code : Z) (w : ResponseWriter) : ResponseWriter :=
  match wroteHeader w with
  | Some _ => w
  | None =>
      if checkWriteHeaderCode code
      then mkResponseWriter (header w) (Some code) (written w) (panicked w)
      else mkResponseWriter (header w) None (written w) true
  end.

(** [w.WriteHeader(code)] followed by the statements [rest]: a panic in
    [WriteHeader] ends the function, and the handler, there. *)
Definition WriteHeader_then (code : Z) (rest : ResponseWriter -> ResponseWriter)
    (w : ResponseWriter) : ResponseWriter :=
  if WriteHeader_panics code w then WriteHeader code w
  else rest (WriteHeader code w).

Definition StatusOK : Z := 200.
Definition StatusBadRequest : Z := 400.
Definition StatusNotFound : Z := 404.
Definition StatusInternalServerError : Z := 500.

(** [w.Write(data)]: writes the header with 200 first when none was
    written. *)
Definition Write (data : string) (w : ResponseWriter) : ResponseWriter :=
  let w1 := WriteHeader StatusOK w in
  mkResponseWriter (header w1) (wroteHeader w1) (written w1 ++ data) (panicked w1).

Definition newline : string := String "010"%char EmptyString.

(** [http.Error(w, error, code)], as of Go 1.22 (the version the README
    asks for). *)
Definition Error (error : string) (code : Z) (w : ResponseWriter)
  : ResponseWriter :=
  let w1 := update_header (Header_Set "Content-Type" "text/plain; charset=utf-8") w in
  let w2 := update_header (Header_Set "X-Content-Type-Options" "nosniff") w1 in
  WriteHeader_then code (Write (error ++ newline)) w2.

(** [http.NotFound(w, r)]. *)
Definition NotFound (w : ResponseWriter) : ResponseWriter :=
  Error "404 page not found" StatusNotFound w.

(** An [io.ReadCloser]: the bytes still to be read, and the error (if any)
    that a read meets after them instead of the end of the stream. *)
Record Reader := mkReader {
  pending : string;
  failure : option string
}.

(** [io.ReadAll(r)]: everything up to the end of the stream or the first
    error; the reader is left with nothing more to deliver. *)
Definition ReadAll (rd : Reader) : string * option string * Reader :=
  (pending rd, failure rd, mkReader EmptyString (failure rd)).

(** [io.NopCloser(bytes.NewBuffer(b))]. *)
Definition NewBuffer (b : string) : Reader := mkReader b None.

(** The fields of [http.Request] the handlers read. *)
Record Request := mkRequest {
  Method : string;
  URL_Path : string;
  URL_RawQuery : string;
  Body : option Reader
}.

Definition set_Body (r : Request) (b : option Reader) : Request :=
  mkRequest (Method r) (URL_Path r) (URL_RawQuery r) b.

End GoHTTP.

(* ===================================================================== *)
(** ** The persistence collaborator: PostgreSQL through [database/sql]    *)
(* ===================================================================== *)

Module GoSQL.

(** What the queries ask of PostgreSQL: the [jsonb] type, the cast
    [$3::jsonb] (which fails on text the server does not accept), the cast
    [::text] that prints the canonical form, and [md5]. *)
Class Postgres := {
  jsonb : Type;
  jsonb_in : string -> option jsonb;
  jsonb_out : jsonb -> string;
  md5 : string -> string
}.

(** Go's [error] values met by the handlers: [sql.ErrNoRows], or any other
    error with its message. *)
Inductive error :=
  | ErrNoRows
  | ErrOther (msg : string).

Definition error_text (e : error) : string :=
  match e with
  | ErrNoRows => "sql: no rows in result set"
  | ErrOther msg => msg
  end.

(** [err == sql.ErrNoRows]. *)
Definition is_ErrNoRows (e : error) : bool :=
  match e with ErrNoRows => true | ErrOther _ => false end.

(** The error of a query whose context deadline passed. *)
Definition DeadlineExceeded : error := ErrOther "context deadline exceeded".

(** The two statements of [getMockResponse], with their arguments, and the
    statement of the earlier [main.go]:
    - [SelectNullBody path method]:
      [WHERE path = $1 AND method = $2 AND request_body IS NULL];
    - [SelectBodyHash path method body]:
      [WHERE path = $1 AND method = $2
         AND md5(request_body::jsonb::text) = md5($3::jsonb::text)];
    - [SelectPathMethod path method]:
      [WHERE path = $1 AND method = $2].
    Each selects [response_body, headers, response_status_code]. *)
Inductive Query :=
  | SelectNullBody (path method : string)
  | SelectBodyHash (path method body : string)
  | SelectPathMethod (path method : string).

(** The selected columns of a row; [headers] and [response_status_code]
    are nullable. *)
Record Columns := mkColumns {
  col_response_body : string;
  col_headers : option string;
  col_response_status_code : option Z
}.

(** One call of [db.QueryRowContext(ctx, query, args...)]: the timeout of
    the context, in seconds, and the statement. *)
Record RoundTrip := mkRoundTrip {
  rt_timeout : Z;
  rt_query : Query
}.

(** The connection pool as the resolver sees it: a statement gets the
    first row of its result, [sql.ErrNoRows], or another error (a lost
    connection, the deadline, a failing cast). *)
Definition DB := Query -> Columns + error.

(** [sql.NullString]. *)
Record NullString := mkNullString {
  NS_String : string;
  NS_Valid : bool
}.

Definition scan_NullString (v : option string) : NullString :=
  match v with
  | Some s => mkNullString s true
  | None => mkNullString EmptyString false
  end.

Section Table.
Context `{pg : Postgres}.

(** A row of [mock_responses] (see [create_db_script.sql]). *)
Record Row := mkRow {
  path : string;
  method : string;
  request_body : option jsonb;
  response_body : string;
  response_status_code : option Z;
  headers : option string
}.

Definition columns_of (r : Row) : Columns :=
  mkColumns (response_body r) (headers r) (response_status_code r).

(** [md5(request_body::jsonb::text)]: NULL for a NULL body. *)
Definition body_hash (r : Row) : option string :=
  (fun j => md5 (jsonb_out j)) <$> request_body r.

(** [path = $1 AND method = $2]. *)
Definition path_method_match (p m : string) (r : Row) : bool :=
  (bool_decide (path r = p) && bool_decide (method r = m))%bool.

(** The [WHERE] clause with a NULL body. *)
Definition null_body_match (p m : string) (r : Row) : bool :=
  (path_method_match p m r
   && match request_body r with None => true | Some _ => false end)%bool.

(** The [WHERE] clause with a body hash [h = md5($3::jsonb::text)]: a
    comparison with the NULL hash of a NULL body is not true. *)
Definition body_hash_match (p m h : string) (r : Row) : bool :=
  (path_method_match p m r
   && match body_hash r with
      | Some h' => bool_decide (h' = h)
      | None => false
      end)%bool.

(** The first row (in the order the server would return them) that a
    predicate keeps, as [QueryRow] reads it. *)
Definition first_row (f : Row -> bool) (t : list Row) : Columns + error :=
  match List.find f t with
  | Some r => inl (columns_of r)
  | None => inr ErrNoRows
  end.

(** A reachable server holding the table [t]. *)
Definition table_db (t : list Row) : DB := fun q =>
  match q with
  | SelectNullBody p m => first_row (null_body_match p m) t
  | SelectBodyHash p m body =>
      match jsonb_in body with
      | Some j => first_row (body_hash_match p m (md5 (jsonb_out j))) t
      | None => inr (ErrOther "invalid input syntax for type json")
      end
  | SelectPathMethod p m => first_row (path_method_match p m) t
  end.

End Table.

(** The state of a [*sql.DB] handle. *)
Record Pool := mkPool {
  pool_closed : bool;
  MaxOpenConns : option Z;
  MaxIdleConns : option Z;
  ConnMaxLifetime_min : option Z;
  ConnMaxIdleTime_min : option Z
}.

End GoSQL.

(* ===================================================================== *)
(** ** The server (the body-aware program)                                *)
(* ===================================================================== *)

Import GoStrings GoJSON GoHTTP GoSQL.

(** [MockResponse]. *)
Record MockResponse := mkMockResponse {
  ResponseBody : string;
  ResponseStatusCode : Z;
  Headers : NullString
}.

(** The package variables [db] and [once]. *)
Record Globals := mkGlobals {
  db : option Pool;
  once_done : bool
}.

Definition initial_globals : Globals := mkGlobals None false.

(** What the environment answers when a pool is opened and probed. *)
Record Dial := mkDial {
  open_error : option string;
  ping_error : option string
}.

(** The calls [initDB] makes on the outside world. *)
Inductive Action :=
  | ActOpen
  | ActPing
  | ActClose
  | ActPrintln (line : string).

(** [readRequestBody]: the body bytes (or an error), and the request with
    its body replaced by a fresh buffer over the bytes read. *)
Definition readRequestBody (r : Request) : string * option error * Request :=
  match Body r with
  | Some rd =>
      let '(bodyBytes, err, rd') := ReadAll rd in
      match err with
      | Some e =>
          (EmptyString, Some (ErrOther ("error reading request body: " ++ e)),
           set_Body r (Some rd'))
      | None => (bodyBytes, None, set_Body r (Some (NewBuffer bodyBytes)))
      end
  | None => (EmptyString, None, r)
  end.

(** [validateAndReturnJSON]: never an error; the empty string for an empty
    body and for one that [json.Unmarshal] rejects. *)
Definition validateAndReturnJSON (requestBody : string) : string * option error :=
  if String.eqb requestBody "" then (EmptyString, None)
  else if negb (Unmarshal_ok requestBody) then (EmptyString, None)
  else (requestBody, None).

(** The body of the loop of [parseHeaders], for one piece of the split. *)
Definition parse_pair (headers : gmap string string) (pair : string)
  : gmap string string :=
  let pair := TrimSpace pair in
  if String.eqb pair "" then headers
  else match SplitN2 "=" pair with
       | [k; v] => <[TrimSpace k := TrimSpace v]> headers
       | _ => headers
       end.

(** [parseHeaders]. *)
Definition parseHeaders (headerStr : NullString) : gmap string string :=
  if (negb (NS_Valid headerStr) || String.eqb (NS_String headerStr) "")%bool
  then ∅
  else foldl parse_pair ∅ (Split ";" (NS_String headerStr)).

(** [buildFullPath]. *)
Definition buildFullPath (r : Request) : string :=
  let urlPath := URL_Path r in
  if negb (String.eqb (URL_RawQuery r) "")
  then urlPath ++ "?" ++ URL_RawQuery r
  else urlPath.

(** [initDB]: the error returned, the package variables afterwards and the
    calls made. *)
Definition initDB (env : Dial) (g : Globals) : option error * Globals * list Action :=
  if once_done g then (None, g, [])
  else
    match open_error env with
    | Some e => (Some (ErrOther e), mkGlobals None true, [ActOpen])
    | None =>
        match ping_error env with
        | Some e =>
            (Some (ErrOther e),
             mkGlobals (Some (mkPool true None None None None)) true,
             [ActOpen; ActPing; ActClose])
        | None =>
            (None,
             mkGlobals (Some (mkPool false (Some 10) (Some 5) (Some 15) (Some 3))) true,
             [ActOpen; ActPing; ActPrintln "Database connection pool initialized"])
        end
    end.

(** The statement [getMockResponse] builds for its arguments. *)
Definition lookup_query (path method requestBodyJSON : string) : Query :=
  if String.eqb requestBodyJSON "" then SelectNullBody path method
  else SelectBodyHash path method requestBodyJSON.

(** The text of the error [Rows.Scan] returns for a NULL in column
    [index] that does not convert to a destination of the given kind; the
    column name is printed between double quotes. *)
Definition scan_error_text (index : Z) (name kind : string) : string :=
  "sql: Scan error on column index "
  ++ String (ascii_of_nat (48 + Z.to_nat index)) ", name "
  ++ String dquote name ++ String dquote ": converting NULL to "
  ++ kind ++ " is unsupported".

(** [row.Scan(&mockResp.ResponseBody, &mockResp.Headers,
    &mockResp.ResponseStatusCode)]: a NULL status does not convert to
    [int]. *)
Definition scan_columns (c : Columns) : MockResponse + error :=
  match col_response_status_code c with
  | Some code =>
      inl (mkMockResponse (col_response_body c) code (scan_NullString (col_headers c)))
  | None => inr (ErrOther (scan_error_text 2 "response_status_code" "int"))
  end.

(** [getMockResponse]: the record or the error, and the round trips made
    to the store. *)
Definition getMockResponse (conn : DB) (path method requestBodyJSON : string)
  : (MockResponse + error) * list RoundTrip :=
  let query := lookup_query path method requestBodyJSON in
  let res :=
    match conn query with
    | inl cols => scan_columns cols
    | inr e => inr e
    end in
  (res, [mkRoundTrip 5 query]).

Section Handlers.

(** The order in which [for key, value := range headers] visits a map is
    chosen by the runtime. *)
Variable range : gmap string string -> list (string * string).

(** The headers of the writer after the [range] loop of [writeResponse]. *)
Definition apply_headers (headers : gmap string string) (w : ResponseWriter)
  : ResponseWriter :=
  foldl (fun w kv => update_header (Header_Set (fst kv) (snd kv)) w) w (range headers).

(** [writeResponse]. *)
Definition writeResponse (w : ResponseWriter) (mockResp : MockResponse)
  : ResponseWriter :=
  let headers := parseHeaders (Headers mockResp) in
  let w1 := apply_headers headers w in
  let w2 :=
    if String.eqb (Header_Get "Content-Type" (header w1)) ""
    then update_header (Header_Set "Content-Type" "application/json") w1
    else w1 in
  let statusCode :=
    if ResponseStatusCode mockResp =? 0 then StatusOK
    else ResponseStatusCode mockResp in
  WriteHeader_then statusCode (Write (ResponseBody mockResp)) w2.

(** What a call of [proxyHandler] leaves behind: the response, the
    request, the round trips to the store and the log lines.  When the
    response is marked [panicked] the handler did not return: the panic of
    [WriteHeader] goes up to the server, the router having no panic
    handler. *)
Record Handled := mkHandled {
  response : ResponseWriter;
  request : Request;
  round_trips : list RoundTrip;
  log : list string
}.

(** [proxyHandler]. *)
Definition proxyHandler (conn : DB) (w : ResponseWriter) (r : Request) : Handled :=
  let urlPath := buildFullPath r in
  let method := Method r in
  let '(requestBody, err, r1) := readRequestBody r in
  match err with
  | Some e =>
      mkHandled (Error "Error reading request body" StatusBadRequest w) r1 []
        ["Error reading request body: " ++ error_text e]
  | None =>
      let '(validatedJSON, err) := validateAndReturnJSON requestBody in
      match err with
      | Some e =>
          mkHandled (Error "Invalid JSON" StatusBadRequest w) r1 []
            ["Invalid JSON: " ++ error_text e]
      | None =>
          let '(res, trips) := getMockResponse conn urlPath method validatedJSON in
          match res with
          | inr e =>
              if is_ErrNoRows e then mkHandled (NotFound w) r1 trips []
              else mkHandled
                     (Error "Internal server error" StatusInternalServerError w)
                     r1 trips ["Database error: " ++ error_text e]
          | inl mockResp => mkHandled (writeResponse w mockResp) r1 trips []
          end
      end
  end.

End Handlers.

(* ===================================================================== *)
(** ** The earlier server of [main.go] (path and method only)             *)
(* ===================================================================== *)

Module MainGo.

(** [MockResponse] of [main.go]: [Headers] is a plain string. *)
Record MockResponse := mkMockResponse {
  Path : string;
  Method_ : string;
  ResponseBody : string;
  ResponseStatusCode : Z;
  Headers : string
}.

(** [parseHeaders] of [main.go]. *)
Definition parseHeaders (headerStr : string) : gmap string string :=
  if String.eqb headerStr "" then ∅
  else foldl parse_pair ∅ (Split ";" headerStr).

(** [buildFullPath] of [main.go]. *)
Definition buildFullPath (r : Request) : string :=
  let urlPath := URL_Path r in
  if negb (String.eqb (URL_RawQuery r) "")
  then urlPath ++ "?" ++ URL_RawQuery r
  else urlPath.

(** [initDB] of [main.go]. *)
Definition initDB (env : Dial) (g : Globals) : option error * Globals * list Action :=
  if once_done g then (None, g, [])
  else
    match open_error env with
    | Some e => (Some (ErrOther e), mkGlobals None true, [ActOpen])
    | None =>
        match ping_error env with
        | Some e =>
            (Some (ErrOther e),
             mkGlobals (Some (mkPool true None None None None)) true,
             [ActOpen; ActPing; ActClose])
        | None =>
            (None,
             mkGlobals (Some (mkPool false (Some 10) (Some 5) (Some 15) (Some 3))) true,
             [ActOpen; ActPing; ActPrintln "Database connection pool initialized"])
        end
    end.

(** The part of [proxyHandler] of [main.go] that writes a found record. *)
Definition write_found (range : gmap string string -> list (string * string))
    (w : ResponseWriter) (mockResp : MockResponse) : ResponseWriter :=
  let headers := parseHeaders (Headers mockResp) in
  let w1 := apply_headers range headers w in
  let w2 :=
    if String.eqb (Header_Get "Content-Type" (header w1)) ""
    then update_header (Header_Set "Content-Type" "application/json") w1
    else w1 in
  let statusCode :=
    if ResponseStatusCode mockResp =? 0 then StatusOK
    else ResponseStatusCode mockResp in
  WriteHeader_then statusCode (Write (ResponseBody mockResp)) w2.

(** The five columns the statement of [main.go] selects; the last three
    are nullable in the table this version was written for. *)
Record Columns := mkColumns {
  col_path : string;
  col_method : string;
  col_response_body : option string;
  col_headers : option string;
  col_response_status_code : option Z
}.

(** The pool as [main.go] sees it. *)
Definition DB := Query -> Columns + error.

(** [row.Scan(&mockResp.Path, &mockResp.Method, &mockResp.ResponseBody,
    &mockResp.Headers, &mockResp.ResponseStatusCode)]: the columns are
    converted in order, and a NULL converts neither to [string] nor to
    [int]. *)
Definition scan_columns (c : Columns) : MockResponse + error :=
  match col_response_body c with
  | None => inr (ErrOther (scan_error_text 2 "response_body" "string"))
  | Some body =>
      match col_headers c with
      | None => inr (ErrOther (scan_error_text 3 "headers" "string"))
      | Some hs =>
          match col_response_status_code c with
          | None => inr (ErrOther (scan_error_text 4 "response_status_code" "int"))
          | Some code => inl (mkMockResponse (col_path c) (col_method c) body code hs)
          end
      end
  end.

(** [getMockResponse] of [main.go]. *)
Definition getMockResponse (conn : DB) (path method : string)
  : (MockResponse + error) * list RoundTrip :=
  let query := SelectPathMethod path method in
  let res :=
    match conn query with
    | inl cols => scan_columns cols
    | inr e => inr e
    end in
  (res, [mkRoundTrip 5 query]).

(** What a call of [proxyHandler] of [main.go] leaves behind: the
    response, the round trips, the lines printed and the log lines.  The
    request is not touched. *)
Record Handled := mkHandled {
  response : ResponseWriter;
  round_trips : list RoundTrip;
  stdout : list string;
  log : list string
}.

(** [proxyHandler] of [main.go]. *)
Definition proxyHandler (range : gmap string string -> list (string * string))
    (conn : DB) (w : ResponseWriter) (r : Request) : Handled :=
  let urlPath := buildFullPath r in
  let method := Method r in
  let printed := ["Method: " ++ method ++ ", Path: " ++ urlPath ++ newline] in
  let '(res, trips) := getMockResponse conn urlPath method in
  match res with
  | inr e =>
      if is_ErrNoRows e then mkHandled (NotFound w) trips printed []
      else mkHandled (Error "Internal server error" StatusInternalServerError w)
             trips printed ["Database error: " ++ error_text e]
  | inl mockResp => mkHandled (write_found range w mockResp) trips printed []
  end.

End MainGo.

(* ===================================================================== *)
(** ** Start-up: [registerHandlers] and [main] (the same in both files)   *)
(* ===================================================================== *)

(** What [main] does, as the outside world sees it: the calls of [initDB],
    a route registered on the router, a line printed, the listener started,
    and the exit of the process through [log.Fatal]. *)
Inductive Event :=
  | EvInit (a : Action)
  | EvHandle (method path : string)
  | EvPrintln (line : string)
  | EvListen (addr : string)
  | EvFatal (msg : string).

(** [registerHandlers(router, path, handler)]: the seven registrations, in
    order. *)
Definition registerHandlers (path : string) : list Event :=
  [ EvHandle "GET" path; EvHandle "POST" path; EvHandle "PUT" path;
    EvHandle "DELETE" path; EvHandle "PATCH" path; EvHandle "OPTIONS" path;
    EvHandle "HEAD" path ].

(** [main], up to the point where it exits or blocks.
    [http.ListenAndServe] blocks while the server runs: [serve_error] is
    [None] for a run in which it has not returned, and the error it
    returned otherwise.  The ways out are calls of [log.Fatal], which exits
    the process without running the deferred [db.Close()]. *)
Definition main (env : Dial) (serve_error : option string) (g : Globals)
  : list Event * Globals :=
  let '(err, g', acts) := initDB env g in
  match err with
  | Some e =>
      ((EvInit <$> acts)
         ++ [EvFatal ("Database initialization failed:" ++ error_text e)],
       g')%list
  | None =>
      ((EvInit <$> acts)
         ++ registerHandlers "/*path"
         ++ [EvPrintln "Server starting on :8080"; EvListen ":8080"]
         ++ match serve_error with
            | Some e => [EvFatal e]
            | None => []
            end,
       g')%list
  end.

(* ===================================================================== *)
(** ** The header codec as the design describes it                        *)
(* ===================================================================== *)

(** The key/value pairs of a serialized header list, in order: split on
    [;], trim, skip the empty segments, split on the first [=] (dropping
    the segments without one), trim key and value. *)
Definition decode_pairs (serialized : string) : list (string * string) :=
  omap (fun seg =>
          match cut "=" seg with
          | Some (k, v) => Some (TrimSpace k, TrimSpace v)
          | None => None
          end)
       (filter (fun seg => seg <> EmptyString) (TrimSpace <$> Split ";" serialized)).

(** The mapping they give when later pairs overwrite earlier ones. *)
Definition decode (serialized : string) : gmap string string :=
  foldl (fun m kv => <[fst kv := snd kv]> m) ∅ (decode_pairs serialized).

(* ===================================================================== *)
(** ** Sample data                                                        *)
(* ===================================================================== *)

(** JSON texts are written with ['] for the string delimiter. *)
Fixpoint json (s : string) : string :=
  match s with
  | EmptyString => EmptyString
  | String c rest => String (if Ascii.eqb c "'" then dquote else c) (json rest)
  end.

Fixpoint strip_spaces (s : string) : string :=
  match s with
  | EmptyString => EmptyString
  | String c rest =>
      if Ascii.eqb c " " then strip_spaces rest else String c (strip_spaces rest)
  end.

(** A stand-in server for the examples: the canonical form of a text is
    the text without its blanks, and the hash of a text is the text. *)
Definition sample_pg : Postgres :=
  {| jsonb := string;
     jsonb_in := fun s => Some (strip_spaces s);
     jsonb_out := fun j => j;
     md5 := fun s => s |}.

(** The iteration order used in the examples. *)
Definition sample_range (m : gmap string string) : list (string * string) :=
  map_to_list m.

(** A store that holds no record at all. *)
Definition empty_db : DB := fun _ => inr ErrNoRows.

(** Several calls of [initDB] in a row. *)
Fixpoint initDB_calls (envs : list Dial) (g : Globals)
  : list (option error) * Globals * list Action :=
  match envs with
  | [] => ([], g, [])
  | env :: rest =>
      let '(e, g1, a1) := initDB env g in
      let '(es, g2, a2) := initDB_calls rest g1 in
      (e :: es, g2, (a1 ++ a2)%list)
  end.

(** The request body can be read to its end. *)
Definition readable (r : Request) : Prop :=
  match Body r with
  | Some rd => failure rd = None
  | None => True
  end.

(* ===================================================================== *)
(** ** Notions used to state the properties                               *)
(* ===================================================================== *)

(** The two query strings of the scenario, as requests. *)
Definition users_active_page : Request :=
  mkRequest "GET" "/api/users" "active=true&page=1" None.
Definition users_page_active : Request :=
  mkRequest "GET" "/api/users" "page=1&active=true" None.

(** Both orders of the query parameters registered, each with a body of
    its own. *)
Definition users_table : list (@Row sample_pg) :=
  [ @mkRow sample_pg "/api/users?active=true&page=1" "GET" None "[1]" (Some 200) None;
    @mkRow sample_pg "/api/users?page=1&active=true" "GET" None "[2]" (Some 200) None ].

(** A pool one can query: open, and not closed again. *)
Definition usable (g : Globals) : Prop :=
  exists p, db g = Some p /\ pool_closed p = false.

(** The bytes [readRequestBody] returns for a readable request. *)
Definition body_bytes (r : Request) : string :=
  match Body r with
  | Some rd => pending rd
  | None => EmptyString
  end.

(** The statement the handler sends for a readable request. *)
Definition handler_query (r : Request) : Query :=
  lookup_query (buildFullPath r) (Method r) (fst (validateAndReturnJSON (body_bytes r))).

(** What the handler answers to the outcome of the lookup. *)
Definition answer (range : gmap string string -> list (string * string))
    (w : ResponseWriter) (res : MockResponse + error) : ResponseWriter :=
  match res with
  | inl mockResp => writeResponse range w mockResp
  | inr e =>
      if is_ErrNoRows e then NotFound w
      else Error "Internal server error" StatusInternalServerError w
  end.

Definition answer_log (res : MockResponse + error) : list string :=
  match res with
  | inl _ => []
  | inr e => if is_ErrNoRows e then [] else ["Database error: " ++ error_text e]
  end.

(** A body-less [POST /api/users] record with status 201, and nothing
    else. *)
Definition post_users_table : list (@Row sample_pg) :=
  [ @mkRow sample_pg "/api/users" "POST" None (json "{'id':124}") (Some 201) None ].

Definition post_new_user : Request :=
  mkRequest "POST" "/api/users" "" (Some (NewBuffer (json "{'name':'New User'}"))).

Definition post_huge_number : Request :=
  mkRequest "POST" "/api/users" "" (Some (NewBuffer "1e999")).

(** A request whose body stream breaks before its end. *)
Definition broken_upload : Request :=
  mkRequest "POST" "/api/users" "" (Some (mkReader "{" (Some "unexpected EOF"))).

(** The value [w.Header().Get("Content-Type")] has after the decoded
    headers were applied to a fresh writer. *)
Definition decoded_content_type (range : gmap string string -> list (string * string))
    (mockResp : MockResponse) : string :=
  Header_Get "Content-Type"
    (header (apply_headers range (parseHeaders (Headers mockResp)) fresh_writer)).

(** A record with an explicitly empty content type. *)
Definition empty_content_type : MockResponse :=
  mkMockResponse "{}" 200 (mkNullString "Content-Type=" true).

(* ===================================================================== *)
(** ** Notions used to state the further properties                       *)
(* ===================================================================== *)

(** The byte [c] occurs in [s]. *)
Fixpoint has_byte (c : ascii) (s : string) : bool :=
  match s with
  | EmptyString => false
  | String a rest => (Ascii.eqb a c || has_byte c rest)%bool
  end.

(** The string starts with the encoding of a white-space rune. *)
Definition starts_space (s : string) : bool :=
  match s with
  | EmptyString => false
  | String a r1 =>
      (asciiSpace a
       || match r1 with
          | EmptyString => false
          | String b r2 =>
              (space2 a b
               || match r2 with
                  | EmptyString => false
                  | String c _ => space3 a b c
                  end)
          end)%bool
  end.

(** The string ends with the encoding of a white-space rune. *)
Definition ends_space (s : string) : bool :=
  match String.rev s with
  | EmptyString => false
  | String a r1 =>
      (asciiSpace a
       || match r1 with
          | EmptyString => false
          | String b r2 =>
              (space2 b a
               || match r2 with
                  | EmptyString => false
                  | String c _ => space3 c b a
                  end)
          end)%bool
  end.

(** The request [readRequestBody] leaves behind when the body was read. *)
Definition after_read (r : Request) : Request :=
  match Body r with
  | Some rd => set_Body r (Some (NewBuffer (pending rd)))
  | None => r
  end.

Definition is_ActOpen (a : Action) : bool :=
  match a with ActOpen => true | _ => false end.

Definition is_ActPing (a : Action) : bool :=
  match a with ActPing => true | _ => false end.

Definition is_ActClose (a : Action) : bool :=
  match a with ActClose => true | _ => false end.

(** How many actions of a trace of [initDB] are of a given kind. *)
Definition count_actions (kind : Action -> bool) (trace : list Action) : nat :=
  length (List.filter kind trace).

(** The events of a trace that start the listener. *)
Definition listens (trace : list Event) : Prop :=
  exists addr, EvListen addr ∈ trace.

(** No two decoded headers name the same header field. *)
Definition distinct_fields (decoded : gmap string string) : Prop :=
  forall k1 k2 v1 v2,
    decoded !! k1 = Some v1 -> decoded !! k2 = Some v2 ->
    CanonicalMIMEHeaderKey k1 = CanonicalMIMEHeaderKey k2 -> k1 = k2.

(* ===================================================================== *)
(** * Properties                                                          *)
(* ===================================================================== *)

(** ** Strings *)

Lemma string_app_cons (c : ascii) (a b : string) :
  String c a ++ b = String c (a ++ b).
Proof. reflexivity. Qed.

Lemma string_length_app (a b : string) :
  String.length (a ++ b) = (String.length a + String.length b)%nat.
Proof.
  induction a as [|c a IH]; [reflexivity|].
  rewrite string_app_cons. cbn [String.length]. now rewrite IH.
Qed.

Lemma string_app_neq_self (p q : string) : p <> p ++ "?" ++ q.
Proof.
  intros H. apply (f_equal String.length) in H.
  rewrite !string_length_app in H. cbn [String.length] in H. lia.
Qed.

Lemma eqb_empty_false (s : string) : s <> "" -> String.eqb s "" = false.
Proof. intros H. now apply String.eqb_neq. Qed.

(** ** Request normalizer: the full path *)

Lemma buildFullPath_query (r : Request) :
  URL_RawQuery r <> "" -> buildFullPath r = URL_Path r ++ "?" ++ URL_RawQuery r.
Proof. intros H. unfold buildFullPath. now rewrite (eqb_empty_false _ H). Qed.

Lemma buildFullPath_no_query (r : Request) :
  URL_RawQuery r = "" -> buildFullPath r = URL_Path r.
Proof. intros H. unfold buildFullPath. now rewrite H. Qed.

Lemma first_row_sound `{pg : Postgres} (f : Row -> bool) (t : list Row) (c : Columns) :
  first_row f t = inl c ->
  exists row, In row t /\ f row = true /\ c = columns_of row.
Proof.
  unfold first_row. destruct (List.find f t) as [row|] eqn:E; [|discriminate].
  intros [= <-]. apply List.find_some in E. exists row. tauto.
Qed.

Lemma first_row_none `{pg : Postgres} (f : Row -> bool) (t : list Row) :
  first_row f t = inr ErrNoRows <-> (forall row, In row t -> f row = false).
Proof.
  unfold first_row. destruct (List.find f t) as [row|] eqn:E.
  - split; [discriminate|]. intros H. apply List.find_some in E as [Hin Hf].
    rewrite (H _ Hin) in Hf. discriminate.
  - split; [|reflexivity]. intros _ row Hin.
    exact (List.find_none f t E row Hin).
Qed.

Lemma null_body_match_iff `{pg : Postgres} (p m : string) (row : Row) :
  null_body_match p m row = true <->
  path row = p /\ method row = m /\ request_body row = None.
Proof.
  unfold null_body_match, path_method_match.
  rewrite !andb_true_iff, !bool_decide_eq_true.
  destruct (request_body row); intuition congruence.
Qed.

Lemma body_hash_match_iff `{pg : Postgres} (p m h : string) (row : Row) :
  body_hash_match p m h row = true <->
  path row = p /\ method row = m /\
  exists j, request_body row = Some j /\ md5 (jsonb_out j) = h.
Proof.
  unfold body_hash_match, path_method_match, body_hash.
  rewrite !andb_true_iff, !bool_decide_eq_true.
  destruct (request_body row) as [j|]; cbn.
  - rewrite bool_decide_eq_true. split.
    + intros [[? ?] ?]. eauto.
    + intros (? & ? & j' & [= <-] & ?). auto.
  - split; [intros [_ ?]; discriminate|]. intros (_ & _ & j & ? & _). discriminate.
Qed.

(** C7: the lookup key's full path is the request path, followed by [?] and
    the raw query string exactly when the query string is not empty.  The
    bytes are kept as they are: for one path, different raw query strings
    (another parameter order, an escape left undecoded) give different keys;
    a record is found only under its own [path] string, so the two
    registered orders of [active] and [page] each answer only their own
    request.  The function of [main.go] is the same. *)
Theorem C7_full_path_is_path_and_raw_query (r : Request) :
  (URL_RawQuery r <> "" -> buildFullPath r = URL_Path r ++ "?" ++ URL_RawQuery r)
  /\ (URL_RawQuery r = "" -> buildFullPath r = URL_Path r)
  /\ (buildFullPath r = URL_Path r ++ "?" ++ URL_RawQuery r <-> URL_RawQuery r <> "")
  /\ (forall r', URL_Path r' = URL_Path r -> buildFullPath r' = buildFullPath r ->
                 URL_RawQuery r' = URL_RawQuery r)
  /\ MainGo.buildFullPath r = buildFullPath r
  /\ buildFullPath (mkRequest "GET" "/search" "q=a%20b&x=%2F" None) = "/search?q=a%20b&x=%2F"
  /\ buildFullPath users_active_page <> buildFullPath users_page_active
  /\ (forall (pg : Postgres) (t : list Row) (c : Columns),
        table_db t (lookup_query (buildFullPath r) (Method r) "") = inl c ->
        exists row, In row t /\ path row = buildFullPath r /\ method row = Method r
                    /\ c = columns_of row)
  /\ written (response (proxyHandler sample_range (@table_db sample_pg users_table)
                          fresh_writer users_active_page)) = "[1]"
  /\ written (response (proxyHandler sample_range (@table_db sample_pg users_table)
                          fresh_writer users_page_active)) = "[2]".
Proof.
  split; [apply buildFullPath_query|].
  split; [apply buildFullPath_no_query|].
  split.
  { split.
    - intros H Hq. rewrite (buildFullPath_no_query _ Hq) in H.
      now apply string_app_neq_self in H.
    - apply buildFullPath_query. }
  split.
  { intros r' Hp H.
    destruct (decide (URL_RawQuery r = "")) as [Hq|Hq];
      destruct (decide (URL_RawQuery r' = "")) as [Hq'|Hq'].
    - congruence.
    - rewrite (buildFullPath_no_query _ Hq), (buildFullPath_query _ Hq'), Hp in H.
      symmetry in H. now apply string_app_neq_self in H.
    - rewrite (buildFullPath_query _ Hq), (buildFullPath_no_query _ Hq'), Hp in H.
      now apply string_app_neq_self in H.
    - rewrite (buildFullPath_query _ Hq), (buildFullPath_query _ Hq'), Hp in H.
      apply (inj (String.append (URL_Path r))) in H.
      now apply (inj (String.append "?")) in H. }
  split; [reflexivity|].
  split; [reflexivity|].
  split; [discriminate|].
  split.
  { intros pg t c H. cbn in H. apply first_row_sound in H as (row & Hin & Hm & ->).
    apply null_body_match_iff in Hm as (? & ? & _). eauto. }
  split; vm_compute; reflexivity.
Qed.

(** ** Request normalizer: reading the body *)

(** C8: when the body can be read to its end, [readRequestBody] returns all
    of its bytes without an error and leaves the request with a body that
    delivers the same bytes again; the stream that was read is itself
    exhausted, so it is the replacement that keeps the body readable.  The
    other fields of the request are untouched, and the request a handler
    leaves behind has this restored body. *)
Theorem C8_body_is_buffered_and_restored (r : Request) (rd : Reader) :
  Body r = Some rd -> failure rd = None ->
  let '(requestBody, err, r') := readRequestBody r in
  requestBody = pending rd
  /\ err = None
  /\ Body r' = Some (NewBuffer (pending rd))
  /\ (exists rd', Body r' = Some rd' /\ fst (ReadAll rd') = (pending rd, None))
  /\ pending (snd (ReadAll rd)) = ""
  /\ Method r' = Method r /\ URL_Path r' = URL_Path r
  /\ URL_RawQuery r' = URL_RawQuery r
  /\ (forall range conn w,
        Body (request (proxyHandler range conn w r)) = Some (NewBuffer (pending rd))).
Proof.
  intros HB Hf. unfold readRequestBody. rewrite HB. unfold ReadAll. rewrite Hf.
  repeat split.
  - eexists. split; [reflexivity|]. reflexivity.
  - intros range conn w. unfold proxyHandler, readRequestBody.
    rewrite HB. unfold ReadAll. rewrite Hf.
    destruct (validateAndReturnJSON (pending rd)) as [v [e|]];
      [reflexivity|].
    unfold getMockResponse.
    destruct (match conn _ with inl cols => scan_columns cols | inr e => inr e end)
      as [m|e]; [reflexivity|].
    now destruct (is_ErrNoRows e).
Qed.

Lemma C8_body_is_buffered_and_restored_witness :
  let r := mkRequest "POST" "/api/users" "" (Some (NewBuffer "[1, 2]")) in
  let '(requestBody, err, r') := readRequestBody r in
  requestBody = "[1, 2]"
  /\ err = None
  /\ Body r' = Some (NewBuffer "[1, 2]")
  /\ (exists rd', Body r' = Some rd' /\ fst (ReadAll rd') = ("[1, 2]", None))
  /\ pending (snd (ReadAll (NewBuffer "[1, 2]"))) = ""
  /\ Method r' = "POST" /\ URL_Path r' = "/api/users"
  /\ URL_RawQuery r' = ""
  /\ (forall range conn w,
        Body (request (proxyHandler range conn w r)) = Some (NewBuffer "[1, 2]")).
Proof.
  exact (C8_body_is_buffered_and_restored
           (mkRequest "POST" "/api/users" "" (Some (NewBuffer "[1, 2]")))
           (NewBuffer "[1, 2]") eq_refl eq_refl).
Defined.

(** ** Connection lifecycle *)

Lemma initDB_done (env : Dial) (g : Globals) :
  once_done g = true -> initDB env g = (None, g, []).
Proof. intros H. unfold initDB. now rewrite H. Qed.

Lemma initDB_sets_done (env : Dial) (g : Globals) :
  once_done (snd (fst (initDB env g))) = true.
Proof.
  unfold initDB. destruct (once_done g) eqn:E; [exact E|].
  destruct (open_error env); [reflexivity|].
  destruct (ping_error env); reflexivity.
Qed.

Lemma initDB_calls_done (envs : list Dial) (g : Globals) :
  once_done g = true ->
  initDB_calls envs g = (replicate (length envs) None, g, []).
Proof.
  intros H. induction envs as [|env envs IH]; [reflexivity|].
  cbn [initDB_calls]. rewrite (initDB_done env g H), IH. reflexivity.
Qed.

(** C9: when the first call of [initDB] fails (the pool cannot be opened,
    or the probe fails), no usable pool is left behind, and yet every later
    call returns no error, makes no call on the outside world and leaves the
    package variables as they are, whatever the environment would answer
    by then.  The function of [main.go] is the same. *)
Theorem C9_failed_init_is_not_retried (env : Dial) (g : Globals) (e : error) :
  once_done g = false ->
  fst (fst (initDB env g)) = Some e ->
  let g' := snd (fst (initDB env g)) in
  ~ usable g'
  /\ (forall env', initDB env' g' = (None, g', []))
  /\ (forall envs, initDB_calls envs g' = (replicate (length envs) None, g', []))
  /\ MainGo.initDB env g = initDB env g
  /\ (forall env', MainGo.initDB env' g' = (None, g', [])).
Proof.
  intros Hg He g'.
  assert (Hd : once_done g' = true) by apply initDB_sets_done.
  split.
  { subst g'. revert He. unfold initDB. rewrite Hg.
    destruct (open_error env); [|destruct (ping_error env)]; cbn.
    - intros _ (p & Hp & _). discriminate.
    - intros _ (p & [= <-] & Hc). discriminate.
    - discriminate. }
  split; [intros env'; now apply initDB_done|].
  split; [intros envs; now apply initDB_calls_done|].
  split; [reflexivity|].
  intros env'. change (MainGo.initDB env' g') with (initDB env' g').
  now apply initDB_done.
Qed.

Lemma C9_failed_init_is_not_retried_witness :
  let env := mkDial None (Some "connection refused") in
  let g' := snd (fst (initDB env initial_globals)) in
  ~ usable g'
  /\ (forall env', initDB env' g' = (None, g', []))
  /\ (forall envs, initDB_calls envs g' = (replicate (length envs) None, g', []))
  /\ MainGo.initDB env initial_globals = initDB env initial_globals
  /\ (forall env', MainGo.initDB env' g' = (None, g', [])).
Proof.
  exact (C9_failed_init_is_not_retried
           (mkDial None (Some "connection refused")) initial_globals
           (ErrOther "connection refused") eq_refl eq_refl).
Defined.

(** ** Header codec *)

Lemma parse_pair_step (m : gmap string string) (seg : string) :
  parse_pair m seg =
  if decide (TrimSpace seg <> "") then
    match cut "=" (TrimSpace seg) with
    | Some (k, v) => <[TrimSpace k := TrimSpace v]> m
    | None => m
    end
  else m.
Proof.
  unfold parse_pair, SplitN2.
  destruct (String.eqb_spec (TrimSpace seg) "") as [E|E].
  - rewrite decide_False; [reflexivity|]. intros H. now apply H.
  - rewrite decide_True by exact E.
    now destruct (cut "=" (TrimSpace seg)) as [[k v]|].
Qed.

Lemma foldl_parse_pair (segs : list string) (m : gmap string string) :
  foldl parse_pair m segs =
  foldl (fun m kv => <[fst kv := snd kv]> m) m
    (omap (fun seg =>
             match cut "=" seg with
             | Some (k, v) => Some (TrimSpace k, TrimSpace v)
             | None => None
             end)
          (filter (fun seg => seg <> EmptyString) (TrimSpace <$> segs))).
Proof.
  revert m. induction segs as [|seg segs IH]; intros m; [reflexivity|].
  cbn [foldl fmap list_fmap]. rewrite filter_cons, parse_pair_step, IH.
  destruct (decide (TrimSpace seg <> "")) as [E|E]; [|reflexivity].
  cbn [omap list_omap]. now destruct (cut "=" (TrimSpace seg)) as [[k v]|].
Qed.

Lemma foldl_insert_lookup (l : list (string * string)) (m : gmap string string)
    (k : string) :
  foldl (fun m kv => <[fst kv := snd kv]> m) m l !! k =
  match last (filter (fun kv => fst kv = k) l) with
  | Some kv => Some (snd kv)
  | None => m !! k
  end.
Proof.
  induction l as [|x l IH] using rev_ind; [reflexivity|].
  rewrite foldl_app, filter_app. cbn [foldl]. rewrite filter_cons, filter_nil.
  destruct (decide (fst x = k)) as [E|E].
  - rewrite last_snoc, E. apply lookup_insert_eq.
  - rewrite app_nil_r, lookup_insert_ne by exact E. exact IH.
Qed.

Lemma Split_not_nil (sep : ascii) (s : string) : Split sep s <> [].
Proof.
  destruct s as [|c s]; cbn [Split]; [discriminate|].
  destruct (Ascii.eqb c sep); [discriminate|].
  now destruct (Split sep s).
Qed.

Lemma Split_snoc_sep (sep : ascii) (s : string) :
  Split sep (s ++ String sep "") = (Split sep s ++ [""])%list.
Proof.
  induction s as [|c s IH].
  - change (Split sep (String sep "") = [""; ""]).
    cbn [Split]. now rewrite Ascii.eqb_refl.
  - rewrite string_app_cons. cbn [Split]. rewrite IH.
    destruct (Ascii.eqb c sep); [reflexivity|].
    pose proof (Split_not_nil sep s) as Hne.
    now destruct (Split sep s).
Qed.

Lemma parseHeaders_valid (s : string) :
  parseHeaders (mkNullString s true) = foldl parse_pair ∅ (Split ";" s).
Proof.
  unfold parseHeaders. cbn [NS_Valid NS_String negb orb].
  destruct (String.eqb_spec s "") as [->|_]; reflexivity.
Qed.

(** C4: [parseHeaders] is the decoder of the design: the pairs are taken
    from the pieces between [;], trimmed, empty pieces skipped, cut at the
    first [=] (pieces without one dropped), key and value trimmed; a key
    maps to the value of its last pair; a mapping is returned for every
    input (the empty one for a NULL column); a [;] at the end changes
    nothing.  [main.go] decodes the same way. *)
Theorem C4_parseHeaders_is_the_decoder (s : string) :
  parseHeaders (mkNullString s true) = decode s
  /\ MainGo.parseHeaders s = decode s
  /\ (forall k, decode s !! k =
                snd <$> last (filter (fun kv => fst kv = k) (decode_pairs s)))
  /\ parseHeaders (mkNullString s false) = ∅
  /\ parseHeaders (mkNullString (s ++ ";") true) = parseHeaders (mkNullString s true)
  /\ parseHeaders (mkNullString "Content-Type=application/json;X-Test=1" true)
     = {[ "Content-Type" := "application/json"; "X-Test" := "1" ]}
  /\ parseHeaders (mkNullString "A=1;" true) = {[ "A" := "1" ]}
  /\ parseHeaders (mkNullString "A=1;" true) !! "" = None
  /\ parseHeaders (mkNullString " A = x=y ; novalue ;; A=2" true) = {[ "A" := "2" ]}
  /\ parseHeaders (mkNullString "k = a=b " true) = {[ "k" := "a=b" ]}.
Proof.
  split; [rewrite parseHeaders_valid; apply foldl_parse_pair|].
  split.
  { unfold MainGo.parseHeaders, decode, decode_pairs. rewrite <- foldl_parse_pair.
    destruct (String.eqb_spec s "") as [->|_]; reflexivity. }
  split.
  { intros k. unfold decode. rewrite foldl_insert_lookup, lookup_empty.
    now destruct (last _). }
  split; [reflexivity|].
  split.
  { rewrite !parseHeaders_valid, (Split_snoc_sep ";" s), foldl_app.
    cbn [foldl]. rewrite parse_pair_step. reflexivity. }
  repeat split; vm_compute; reflexivity.
Qed.

(** ** Response resolver *)

Lemma lookup_query_body (p m body : string) :
  body <> "" -> lookup_query p m body = SelectBodyHash p m body.
Proof. intros H. unfold lookup_query. now rewrite (eqb_empty_false _ H). Qed.

(** C1: [getMockResponse] makes one round trip, with one of two
    statements.  With an empty validated body it asks for a row with this
    path and method and a NULL [request_body]; otherwise it asks for a row
    with this path and method whose [request_body], cast to canonical text
    and hashed with md5 by the server, has the hash of the submitted body
    treated the same way.  The result is the result of that statement.
    Since the server compares hashes of canonical texts, two submitted
    bodies that it parses to the same [jsonb] value get the same answer. *)
Theorem C1_one_of_two_queries (conn : DB) (p m body : string) :
  let '(res, trips) := getMockResponse conn p m body in
  (body = "" -> trips = [mkRoundTrip 5 (SelectNullBody p m)])
  /\ (body <> "" -> trips = [mkRoundTrip 5 (SelectBodyHash p m body)])
  /\ (exists q, trips = [mkRoundTrip 5 q]
                /\ res = match conn q with
                         | inl cols => scan_columns cols
                         | inr e => inr e
                         end)
  /\ (forall (pg : Postgres) (t : list Row),
        (forall c, table_db t (SelectNullBody p m) = inl c ->
           exists row, In row t /\ c = columns_of row /\ path row = p
                       /\ method row = m /\ request_body row = None)
        /\ (table_db t (SelectNullBody p m) = inr ErrNoRows <->
            forall row, In row t ->
              ~ (path row = p /\ method row = m /\ request_body row = None))
        /\ (forall j, jsonb_in body = Some j ->
              (forall c, table_db t (SelectBodyHash p m body) = inl c ->
                 exists row j', In row t /\ c = columns_of row /\ path row = p
                   /\ method row = m /\ request_body row = Some j'
                   /\ md5 (jsonb_out j') = md5 (jsonb_out j))
              /\ (table_db t (SelectBodyHash p m body) = inr ErrNoRows <->
                  forall row, In row t ->
                    ~ (path row = p /\ method row = m /\
                       exists j', request_body row = Some j'
                                  /\ md5 (jsonb_out j') = md5 (jsonb_out j))))
        /\ (forall body', jsonb_in body' = jsonb_in body ->
              table_db t (SelectBodyHash p m body')
              = table_db t (SelectBodyHash p m body))).
Proof.
  unfold getMockResponse.
  split; [intros ->; reflexivity|].
  split; [intros H; now rewrite (lookup_query_body _ _ _ H)|].
  split; [eexists; split; reflexivity|].
  intros pg t. split.
  { intros c H. cbn in H. apply first_row_sound in H as (row & Hin & Hm & ->).
    apply null_body_match_iff in Hm. exists row. tauto. }
  split.
  { cbn. rewrite first_row_none. split; intros H row Hin.
    - rewrite <- null_body_match_iff, (H row Hin). discriminate.
    - specialize (H row Hin). rewrite <- null_body_match_iff in H.
      now destruct (null_body_match p m row). }
  split.
  { intros j Hj. cbn. rewrite Hj. split.
    - intros c H. apply first_row_sound in H as (row & Hin & Hm & ->).
      apply body_hash_match_iff in Hm as (? & ? & j' & ? & ?).
      exists row, j'. tauto.
    - rewrite first_row_none. split; intros H row Hin.
      + rewrite <- body_hash_match_iff, (H row Hin). discriminate.
      + specialize (H row Hin). rewrite <- body_hash_match_iff in H.
        now destruct (body_hash_match p m _ row). }
  intros body' H. cbn. now rewrite H.
Qed.

(** ** The handler on a request whose body can be read *)

Lemma validateAndReturnJSON_no_error (body : string) :
  snd (validateAndReturnJSON body) = None.
Proof.
  unfold validateAndReturnJSON. destruct (String.eqb body ""); [reflexivity|].
  now destruct (Unmarshal_ok body).
Qed.

Lemma validateAndReturnJSON_accepted (body : string) :
  Unmarshal_ok body = true -> validateAndReturnJSON body = (body, None).
Proof.
  intros H. unfold validateAndReturnJSON. rewrite H.
  destruct (String.eqb_spec body "") as [->|_]; [discriminate H|reflexivity].
Qed.

Lemma validateAndReturnJSON_rejected (body : string) :
  Unmarshal_ok body = false -> validateAndReturnJSON body = ("", None).
Proof.
  intros H. unfold validateAndReturnJSON. rewrite H.
  now destruct (String.eqb body "").
Qed.

Lemma Unmarshal_ok_not_empty (body : string) : Unmarshal_ok body = true -> body <> "".
Proof. intros H ->. discriminate H. Qed.

Ltac split_validated :=
  match goal with
  | |- context [validateAndReturnJSON ?b] =>
      let Hv := fresh "Hv" in
      pose proof (validateAndReturnJSON_no_error b) as Hv;
      destruct (validateAndReturnJSON b) as [? [?|]];
      cbn in Hv; [discriminate Hv|clear Hv]
  end.

Ltac split_lookup conn :=
  unfold getMockResponse; cbn [fst];
  destruct (conn _) as [[? ? [?|]]|[|?]];
  cbn; repeat split; reflexivity.

Lemma proxyHandler_readable range (conn : DB) (w : ResponseWriter) (r : Request) :
  readable r ->
  let res := fst (getMockResponse conn (buildFullPath r) (Method r)
                    (fst (validateAndReturnJSON (body_bytes r)))) in
  response (proxyHandler range conn w r) = answer range w res
  /\ round_trips (proxyHandler range conn w r) = [mkRoundTrip 5 (handler_query r)]
  /\ log (proxyHandler range conn w r) = answer_log res.
Proof.
  unfold handler_query, readable, body_bytes, proxyHandler, readRequestBody.
  destruct (Body r) as [rd|].
  - intros Hf. unfold ReadAll. rewrite Hf. cbv zeta.
    split_validated. split_lookup conn.
  - intros _. cbv zeta. split_validated. split_lookup conn.
Qed.

(** ** Request normalizer: bodies the decoder rejects *)

(** C3: a body that can be read but that [json.Unmarshal] rejects is
    treated as no body: [validateAndReturnJSON] returns the empty string and
    no error, the handler sends the NULL-body statement, and everything it
    answers and logs is what it answers and logs for the same request
    without a body. *)
Theorem C3_rejected_body_is_no_body range (conn : DB) (w : ResponseWriter)
    (r : Request) (rd : Reader) :
  Body r = Some rd -> failure rd = None -> Unmarshal_ok (pending rd) = false ->
  validateAndReturnJSON (pending rd) = ("", None)
  /\ round_trips (proxyHandler range conn w r)
     = [mkRoundTrip 5 (SelectNullBody (buildFullPath r) (Method r))]
  /\ response (proxyHandler range conn w r)
     = response (proxyHandler range conn w (set_Body r None))
  /\ round_trips (proxyHandler range conn w r)
     = round_trips (proxyHandler range conn w (set_Body r None))
  /\ log (proxyHandler range conn w r)
     = log (proxyHandler range conn w (set_Body r None)).
Proof.
  intros HB Hf Hrej.
  assert (Hr : readable r) by (unfold readable; now rewrite HB).
  assert (Hr' : readable (set_Body r None)) by exact I.
  destruct (proxyHandler_readable range conn w r Hr) as (E1 & E2 & E3).
  destruct (proxyHandler_readable range conn w _ Hr') as (F1 & F2 & F3).
  rewrite E1, E2, E3, F1, F2, F3.
  unfold handler_query, body_bytes. rewrite HB.
  rewrite (validateAndReturnJSON_rejected _ Hrej).
  repeat split; reflexivity.
Qed.

Lemma C3_rejected_body_is_no_body_witness :
  let r := mkRequest "POST" "/api/users" "" (Some (NewBuffer "{name: New User")) in
  validateAndReturnJSON "{name: New User" = ("", None)
  /\ round_trips (proxyHandler sample_range empty_db fresh_writer r)
     = [mkRoundTrip 5 (SelectNullBody (buildFullPath r) (Method r))]
  /\ response (proxyHandler sample_range empty_db fresh_writer r)
     = response (proxyHandler sample_range empty_db fresh_writer (set_Body r None))
  /\ round_trips (proxyHandler sample_range empty_db fresh_writer r)
     = round_trips (proxyHandler sample_range empty_db fresh_writer (set_Body r None))
  /\ log (proxyHandler sample_range empty_db fresh_writer r)
     = log (proxyHandler sample_range empty_db fresh_writer (set_Body r None)).
Proof.
  exact (C3_rejected_body_is_no_body sample_range empty_db fresh_writer
           (mkRequest "POST" "/api/users" "" (Some (NewBuffer "{name: New User")))
           (NewBuffer "{name: New User") eq_refl eq_refl eq_refl).
Defined.

(** ** What counts as a present body *)

Lemma scan_all_error (s : scanner) (data : string) :
  step s = stateError -> err s = true -> err (scan_all s data) = true.
Proof.
  revert s. induction data as [|c data IH]; intros s Hs He; [exact He|].
  cbn [scan_all]. apply IH; unfold scan_step; rewrite Hs; reflexivity.
Qed.

Lemma space_byte_at_start (c : ascii) :
  asciiSpace c = true ->
  scan_step reset c = reset \/ scan_step reset c = GoJSON.error reset.
Proof.
  destruct c as [[] [] [] [] [] [] [] []]; vm_compute; intros H;
    first [discriminate H | now left | now right].
Qed.

Lemma space_only_scan (data : string) :
  all_bytes asciiSpace data = true ->
  scan_all reset data = reset \/ err (scan_all reset data) = true.
Proof.
  induction data as [|c data IH]; [now left|].
  cbn [all_bytes scan_all]. intros [Hc Hd]%andb_true_iff.
  destruct (space_byte_at_start c Hc) as [-> | ->]; [now apply IH|].
  right. now apply scan_all_error.
Qed.

Lemma space_only_invalid (data : string) :
  all_bytes asciiSpace data = true -> checkValid data = false.
Proof.
  intros H. unfold checkValid.
  destruct (space_only_scan data H) as [-> | E]; [reflexivity|].
  unfold eof_ok. now rewrite E.
Qed.

(** C10, as the program has it: the body is present exactly when
    [json.Unmarshal] accepts it.  An accepted body (the literal [null] is
    one) is handed on unchanged and looked up by hash; a rejected body is
    handed on as the empty string and looked up with the NULL-body
    statement.  A body of white space only is rejected; so is a well-formed
    text with a number beyond the float64 range, such as [1e999].  The
    choice of statement is made on the validated string alone: a request
    with a body stream is looked up by what validation returned for its
    bytes. *)
Theorem C10_present_means_accepted_by_the_decoder (p m body : string) :
  (Unmarshal_ok body = true ->
     validateAndReturnJSON body = (body, None)
     /\ lookup_query p m (fst (validateAndReturnJSON body)) = SelectBodyHash p m body)
  /\ (Unmarshal_ok body = false ->
        validateAndReturnJSON body = ("", None)
        /\ lookup_query p m (fst (validateAndReturnJSON body)) = SelectNullBody p m)
  /\ Unmarshal_ok "null" = true
  /\ (all_bytes asciiSpace body = true -> Unmarshal_ok body = false)
  /\ (checkValid "1e999" = true /\ Unmarshal_ok "1e999" = false)
  /\ (forall v, lookup_query p m v = SelectNullBody p m <-> v = "")
  /\ (forall range conn w r rd,
        Body r = Some rd -> failure rd = None ->
        round_trips (proxyHandler range conn w r)
        = [mkRoundTrip 5 (lookup_query (buildFullPath r) (Method r)
                            (fst (validateAndReturnJSON (pending rd))))]).
Proof.
  split.
  { intros H. rewrite (validateAndReturnJSON_accepted _ H). split; [reflexivity|].
    apply lookup_query_body. now apply Unmarshal_ok_not_empty. }
  split.
  { intros H. now rewrite (validateAndReturnJSON_rejected _ H). }
  split; [vm_compute; reflexivity|].
  split.
  { intros H. unfold Unmarshal_ok. now rewrite (space_only_invalid _ H). }
  split; [split; vm_compute; reflexivity|].
  split.
  { intros v. split; [|intros ->; reflexivity].
    unfold lookup_query. destruct (String.eqb_spec v ""); [easy|discriminate]. }
  intros range conn w r rd HB Hf.
  assert (Hr : readable r) by (unfold readable; now rewrite HB).
  destruct (proxyHandler_readable range conn w r Hr) as (_ & E & _).
  rewrite E. unfold handler_query, body_bytes. now rewrite HB.
Qed.

(** C10 as stated fails: [1e999] is a well-formed JSON text, and it is
    looked up with the NULL-body statement. *)
Lemma C10_well_formed_body_treated_as_absent :
  ~ (forall body p m : string,
       checkValid body = true ->
       lookup_query p m (fst (validateAndReturnJSON body)) = SelectBodyHash p m body).
Proof.
  intros H. specialize (H "1e999" "/api/users" "POST" eq_refl).
  vm_compute in H. discriminate H.
Qed.

(** ** Bodies and NULL-body records *)

Lemma wroteHeader_Error (msg : string) (code : Z) (w : ResponseWriter) :
  checkWriteHeaderCode code = true ->
  wroteHeader w = None -> wroteHeader (Error msg code w) = Some code.
Proof.
  intros Hc. destruct w as [h [c|] b p]; cbn; [discriminate|].
  intros _. unfold Error, WriteHeader_then, WriteHeader_panics, WriteHeader.
  cbn. rewrite Hc. reflexivity.
Qed.

Lemma written_Error (msg : string) (code : Z) (w : ResponseWriter) :
  checkWriteHeaderCode code = true ->
  written (Error msg code w) = written w ++ msg ++ newline.
Proof.
  intros Hc. unfold Error, WriteHeader_then, WriteHeader_panics, WriteHeader.
  destruct w as [h [c|] b p]; cbn; [reflexivity|].
  rewrite Hc. reflexivity.
Qed.

(** C2, as the program has it: when the body of a request is accepted by
    [json.Unmarshal] (and by the server's [jsonb] cast), a record whose
    [request_body] is NULL is never the answer.  If no record of the table
    has this path, this method and a body with the same hash, the lookup is
    the hash statement alone, it finds no row, and the caller gets 404,
    whatever body-less records the table holds for the path and method. *)
Theorem C2_null_record_never_answers_a_body `{pg : Postgres} range
    (t : list Row) (w : ResponseWriter) (r : Request) (rd : Reader) (j : jsonb) :
  wroteHeader w = None ->
  Body r = Some rd -> failure rd = None ->
  Unmarshal_ok (pending rd) = true ->
  jsonb_in (pending rd) = Some j ->
  (forall row j', In row t -> path row = buildFullPath r -> method row = Method r ->
                  request_body row = Some j' ->
                  md5 (jsonb_out j') <> md5 (jsonb_out j)) ->
  round_trips (proxyHandler range (table_db t) w r)
  = [mkRoundTrip 5 (SelectBodyHash (buildFullPath r) (Method r) (pending rd))]
  /\ table_db t (SelectBodyHash (buildFullPath r) (Method r) (pending rd))
     = inr ErrNoRows
  /\ response (proxyHandler range (table_db t) w r) = NotFound w
  /\ wroteHeader (response (proxyHandler range (table_db t) w r)) = Some StatusNotFound.
Proof.
  intros Hw HB Hf Hok Hj Hno.
  assert (Hr : readable r) by (unfold readable; now rewrite HB).
  destruct (proxyHandler_readable range (table_db t) w r Hr) as (E1 & E2 & _).
  assert (Hq : handler_query r
               = SelectBodyHash (buildFullPath r) (Method r) (pending rd)).
  { unfold handler_query, body_bytes. rewrite HB.
    rewrite (validateAndReturnJSON_accepted _ Hok).
    apply lookup_query_body. now apply Unmarshal_ok_not_empty. }
  assert (Hnone : table_db t (SelectBodyHash (buildFullPath r) (Method r) (pending rd))
                  = inr ErrNoRows).
  { cbn. rewrite Hj. apply first_row_none. intros row Hin.
    destruct (body_hash_match _ _ _ row) eqn:Em; [|reflexivity].
    apply body_hash_match_iff in Em as (Hp & Hm & j' & Hb & Hh).
    now destruct (Hno row j' Hin Hp Hm Hb). }
  assert (Hresp : response (proxyHandler range (table_db t) w r) = NotFound w).
  { rewrite E1. unfold getMockResponse. cbn [fst].
    fold (handler_query r). rewrite Hq, Hnone. reflexivity. }
  rewrite E2, Hq, Hresp. repeat split; try assumption.
  now apply wroteHeader_Error.
Qed.

Lemma C2_null_record_never_answers_a_body_witness :
  round_trips (proxyHandler sample_range (@table_db sample_pg post_users_table)
                 fresh_writer post_new_user)
  = [mkRoundTrip 5 (SelectBodyHash "/api/users" "POST" (json "{'name':'New User'}"))]
  /\ @table_db sample_pg post_users_table
       (SelectBodyHash "/api/users" "POST" (json "{'name':'New User'}"))
     = inr ErrNoRows
  /\ response (proxyHandler sample_range (@table_db sample_pg post_users_table)
                 fresh_writer post_new_user) = NotFound fresh_writer
  /\ wroteHeader (response (proxyHandler sample_range
                              (@table_db sample_pg post_users_table)
                              fresh_writer post_new_user)) = Some StatusNotFound.
Proof.
  refine (@C2_null_record_never_answers_a_body sample_pg sample_range
            post_users_table fresh_writer post_new_user
            (NewBuffer (json "{'name':'New User'}"))
            (strip_spaces (json "{'name':'New User'}"))
            eq_refl eq_refl eq_refl _ eq_refl _).
  - vm_compute. reflexivity.
  - intros row j' [<- | []] _ _ Hb. discriminate Hb.
Defined.

(** C2 as stated fails: [1e999] is a non-empty well-formed JSON body, no
    record of the table has a request body at all, and the request is
    answered with the body-less record (status 201), not with 404. *)
Lemma C2_well_formed_body_matches_null_record :
  checkValid (body_bytes post_huge_number) = true
  /\ body_bytes post_huge_number <> ""
  /\ (forall row, In row post_users_table -> request_body row = None)
  /\ round_trips (proxyHandler sample_range (@table_db sample_pg post_users_table)
                    fresh_writer post_huge_number)
     = [mkRoundTrip 5 (SelectNullBody "/api/users" "POST")]
  /\ wroteHeader (response (proxyHandler sample_range
                              (@table_db sample_pg post_users_table)
                              fresh_writer post_huge_number)) = Some 201
  /\ wroteHeader (response (proxyHandler sample_range
                              (@table_db sample_pg post_users_table)
                              fresh_writer post_huge_number)) <> Some StatusNotFound.
Proof.
  split; [vm_compute; reflexivity|].
  split; [discriminate|].
  split; [intros row [<- | []]; reflexivity|].
  split; [vm_compute; reflexivity|].
  split; [vm_compute; reflexivity|].
  vm_compute. discriminate.
Qed.

(** ** Outcomes of the lookup at the boundary *)

Lemma proxyHandler_unreadable range (conn : DB) (w : ResponseWriter)
    (r : Request) (rd : Reader) (e : string) :
  Body r = Some rd -> failure rd = Some e ->
  response (proxyHandler range conn w r)
  = Error "Error reading request body" StatusBadRequest w
  /\ round_trips (proxyHandler range conn w r) = [].
Proof.
  intros HB Hf. unfold proxyHandler, readRequestBody, ReadAll.
  rewrite HB, Hf. split; reflexivity.
Qed.

Lemma getMockResponse_result (conn : DB) (p m body : string) :
  fst (getMockResponse conn p m body)
  = match conn (lookup_query p m body) with
    | inl cols => scan_columns cols
    | inr e => inr e
    end.
Proof. reflexivity. Qed.

(** C6, as the program has it: for a request whose body could be read, the
    handler makes exactly one round trip to the store, with a timeout of
    five seconds.  When the store reports no row the answer is 404; any
    other failure (the deadline, a lost connection, a row that does not
    scan) gives 500 with the fixed text [Internal server error], the same
    for every failure, whose detail goes to the log only.  No request
    makes more than one round trip; a request whose body cannot be read is
    answered 400 without any. *)
Theorem C6_lookup_outcomes_at_the_boundary range (conn : DB) (w : ResponseWriter)
    (r : Request) :
  wroteHeader w = None -> readable r ->
  let h := proxyHandler range conn w r in
  let res := conn (handler_query r) in
  round_trips h = [mkRoundTrip 5 (handler_query r)]
  /\ (res = inr ErrNoRows ->
        response h = NotFound w /\ wroteHeader (response h) = Some StatusNotFound
        /\ log h = [])
  /\ (forall msg, res = inr (ErrOther msg) ->
        response h = Error "Internal server error" StatusInternalServerError w
        /\ wroteHeader (response h) = Some StatusInternalServerError
        /\ written (response h) = written w ++ "Internal server error" ++ newline
        /\ log h = ["Database error: " ++ msg])
  /\ (res = inr DeadlineExceeded ->
        wroteHeader (response h) = Some StatusInternalServerError)
  /\ (forall cols, res = inl cols -> col_response_status_code cols = None ->
        response h = Error "Internal server error" StatusInternalServerError w)
  /\ (forall r', (length (round_trips (proxyHandler range conn w r')) <= 1)%nat)
  /\ (forall r' rd e, Body r' = Some rd -> failure rd = Some e ->
        round_trips (proxyHandler range conn w r') = []
        /\ wroteHeader (response (proxyHandler range conn w r')) = Some StatusBadRequest).
Proof.
  intros Hw Hr h res.
  destruct (proxyHandler_readable range conn w r Hr) as (E1 & E2 & E3).
  fold h in E1, E2, E3. rewrite getMockResponse_result in E1, E3.
  fold (handler_query r) in E1, E3. fold res in E1, E3.
  split; [exact E2|].
  assert (Hother : forall msg, res = inr (ErrOther msg) ->
            response h = Error "Internal server error" StatusInternalServerError w
            /\ wroteHeader (response h) = Some StatusInternalServerError
            /\ written (response h) = written w ++ "Internal server error" ++ newline
            /\ log h = ["Database error: " ++ msg]).
  { intros msg Hres. rewrite Hres in E1, E3. cbn in E1, E3.
    rewrite E1, E3. rewrite written_Error by reflexivity.
    rewrite wroteHeader_Error by first [exact Hw | reflexivity]. tauto. }
  split.
  { intros Hres. rewrite Hres in E1, E3. cbn in E1, E3.
    rewrite E1, E3. repeat split. now apply wroteHeader_Error. }
  split; [exact Hother|].
  split; [intros Hres; now apply (Hother _ Hres)|].
  split.
  { intros cols Hres Hnull. rewrite Hres in E1. unfold scan_columns in E1.
    rewrite Hnull in E1. exact E1. }
  split.
  { intros r'. destruct (Body r') as [rd|] eqn:HB; [destruct (failure rd) eqn:Hf|].
    - destruct (proxyHandler_unreadable range conn w r' rd _ HB Hf) as (_ & ->).
      cbn. lia.
    - assert (Hr' : readable r') by (unfold readable; now rewrite HB).
      destruct (proxyHandler_readable range conn w r' Hr') as (_ & -> & _).
      cbn. lia.
    - assert (Hr' : readable r') by (unfold readable; now rewrite HB).
      destruct (proxyHandler_readable range conn w r' Hr') as (_ & -> & _).
      cbn. lia. }
  intros r' rd e HB Hf.
  destruct (proxyHandler_unreadable range conn w r' rd e HB Hf) as (-> & ->).
  split; [reflexivity|]. now apply wroteHeader_Error.
Qed.

Lemma C6_lookup_outcomes_at_the_boundary_witness :
  let conn : DB := fun _ => inr DeadlineExceeded in
  let h := proxyHandler sample_range conn fresh_writer post_new_user in
  let res := conn (handler_query post_new_user) in
  round_trips h = [mkRoundTrip 5 (handler_query post_new_user)]
  /\ (res = inr ErrNoRows ->
        response h = NotFound fresh_writer
        /\ wroteHeader (response h) = Some StatusNotFound
        /\ log h = [])
  /\ (forall msg, res = inr (ErrOther msg) ->
        response h = Error "Internal server error" StatusInternalServerError fresh_writer
        /\ wroteHeader (response h) = Some StatusInternalServerError
        /\ written (response h)
           = written fresh_writer ++ "Internal server error" ++ newline
        /\ log h = ["Database error: " ++ msg])
  /\ (res = inr DeadlineExceeded ->
        wroteHeader (response h) = Some StatusInternalServerError)
  /\ (forall cols, res = inl cols -> col_response_status_code cols = None ->
        response h = Error "Internal server error" StatusInternalServerError fresh_writer)
  /\ (forall r', (length (round_trips (proxyHandler sample_range conn fresh_writer r')) <= 1)%nat)
  /\ (forall r' rd e, Body r' = Some rd -> failure rd = Some e ->
        round_trips (proxyHandler sample_range conn fresh_writer r') = []
        /\ wroteHeader (response (proxyHandler sample_range conn fresh_writer r'))
           = Some StatusBadRequest).
Proof.
  exact (C6_lookup_outcomes_at_the_boundary sample_range
           (fun _ => inr DeadlineExceeded) fresh_writer post_new_user eq_refl eq_refl).
Defined.

(** C6 as stated fails: not every request makes exactly one round trip to
    the store. *)
Lemma C6_request_without_round_trip :
  ~ (forall range (conn : DB) (w : ResponseWriter) (r : Request),
       length (round_trips (proxyHandler range conn w r)) = 1%nat).
Proof.
  intros H. specialize (H sample_range empty_db fresh_writer broken_upload).
  vm_compute in H. discriminate H.
Qed.

(** ** Response materializer *)

Lemma apply_headers_fields range (hs : gmap string string) (w : ResponseWriter) :
  header (apply_headers range hs w)
  = foldl (fun h kv => Header_Set (fst kv) (snd kv) h) (header w) (range hs)
  /\ wroteHeader (apply_headers range hs w) = wroteHeader w
  /\ written (apply_headers range hs w) = written w.
Proof.
  unfold apply_headers. revert w.
  induction (range hs) as [|kv l IH]; intros w; [repeat split|].
  cbn [foldl]. destruct (IH (update_header (Header_Set (fst kv) (snd kv)) w))
    as (-> & -> & ->). repeat split.
Qed.

Lemma foldl_Header_Set_lookup (l : list (string * string)) (h : Header) (c : string) :
  foldl (fun h kv => Header_Set (fst kv) (snd kv) h) h l !! c =
  match last (filter (fun kv => CanonicalMIMEHeaderKey (fst kv) = c) l) with
  | Some kv => Some [snd kv]
  | None => h !! c
  end.
Proof.
  induction l as [|x l IH] using rev_ind; [reflexivity|].
  rewrite foldl_app, filter_app. cbn [foldl]. rewrite filter_cons, filter_nil.
  unfold Header_Set at 1.
  destruct (decide (CanonicalMIMEHeaderKey (fst x) = c)) as [E|E].
  - rewrite last_snoc, E. apply lookup_insert_eq.
  - rewrite app_nil_r, lookup_insert_ne by exact E. exact IH.
Qed.

Lemma last_filter_Some {A} (P : A -> Prop) `{forall x, Decision (P x)}
    (l : list A) (x : A) :
  last (filter P l) = Some x -> P x /\ x ∈ l.
Proof.
  intros E. apply last_Some_elem_of in E. now apply list_elem_of_filter in E.
Qed.

Lemma last_filter_None {A} (P : A -> Prop) `{forall x, Decision (P x)}
    (l : list A) (x : A) :
  last (filter P l) = None -> x ∈ l -> ~ P x.
Proof.
  intros E Hin HP. apply last_None in E.
  assert (Hx : x ∈ filter P l) by (apply list_elem_of_filter; auto).
  rewrite E in Hx. now apply not_elem_of_nil in Hx.
Qed.

Lemma range_elem range (hs : gmap string string) (k v : string) :
  (forall m, range m ≡ₚ map_to_list m) ->
  (k, v) ∈ range hs <-> hs !! k = Some v.
Proof. intros Hp. rewrite (Hp hs). apply elem_of_map_to_list. Qed.

Lemma MainGo_parseHeaders_eq (s : string) :
  MainGo.parseHeaders s = parseHeaders (mkNullString s true).
Proof.
  rewrite parseHeaders_valid. unfold MainGo.parseHeaders.
  destruct (String.eqb_spec s "") as [->|_]; reflexivity.
Qed.

Lemma WriteHeader_then_Write_fresh (body : string) (code : Z) (w : ResponseWriter) :
  wroteHeader w = None -> written w = "" -> panicked w = false ->
  WriteHeader_then code (Write body) w
  = if checkWriteHeaderCode code
    then mkResponseWriter (header w) (Some code) body false
    else mkResponseWriter (header w) None "" true.
Proof.
  destruct w as [h [c|] b p]; cbn; [discriminate|]. intros _ -> ->.
  unfold WriteHeader_then, WriteHeader_panics, WriteHeader, Write. cbn.
  destruct (checkWriteHeaderCode code); reflexivity.
Qed.

Lemma apply_headers_panicked range (hs : gmap string string) (w : ResponseWriter) :
  panicked (apply_headers range hs w) = panicked w.
Proof.
  unfold apply_headers. revert w.
  induction (range hs) as [|kv l IH]; intros w; [reflexivity|].
  cbn [foldl]. now rewrite IH.
Qed.

Lemma all_equal_replicate {A} (l : list A) (x : A) :
  (forall y, y ∈ l -> y = x) -> l = replicate (length l) x.
Proof.
  induction l as [|a l IH]; intros H; [reflexivity|].
  cbn. rewrite <- IH.
  - f_equal. apply H. now left.
  - intros y Hy. apply H. now right.
Qed.

Lemma permutation_of_equals {A} (l1 l2 : list A) :
  l1 ≡ₚ l2 -> (forall x y, x ∈ l1 -> y ∈ l1 -> x = y) -> l1 = l2.
Proof.
  intros Hp Heq. destruct l1 as [|a l1].
  - symmetry. now apply Permutation_nil.
  - rewrite (all_equal_replicate (a :: l1) a)
      by (intros y Hy; apply Heq; [exact Hy | now left]).
    rewrite (all_equal_replicate l2 a).
    + now rewrite (Permutation_length Hp).
    + intros y Hy. rewrite <- Hp in Hy. apply Heq; [exact Hy | now left].
Qed.

Lemma ResponseWriter_eq (a b : ResponseWriter) :
  header a = header b -> wroteHeader a = wroteHeader b -> written a = written b ->
  panicked a = panicked b ->
  a = b.
Proof. destruct a, b; cbn; intros; subst; reflexivity. Qed.

Lemma apply_headers_any_order range1 range2 (decoded : gmap string string)
    (w : ResponseWriter) :
  (forall m, range1 m ≡ₚ map_to_list m) ->
  (forall m, range2 m ≡ₚ map_to_list m) ->
  distinct_fields decoded ->
  apply_headers range1 decoded w = apply_headers range2 decoded w.
Proof.
  intros Hp1 Hp2 Hd.
  destruct (apply_headers_fields range1 decoded w) as (A1 & A2 & A3).
  destruct (apply_headers_fields range2 decoded w) as (B1 & B2 & B3).
  apply ResponseWriter_eq;
    [|congruence|congruence|now rewrite !apply_headers_panicked].
  rewrite A1, B1. apply map_eq. intros c.
  rewrite !foldl_Header_Set_lookup.
  assert (Hf : filter (fun kv => CanonicalMIMEHeaderKey (fst kv) = c) (range1 decoded)
               = filter (fun kv => CanonicalMIMEHeaderKey (fst kv) = c) (range2 decoded)).
  { apply permutation_of_equals.
    - now rewrite (Hp1 decoded), (Hp2 decoded).
    - intros [k1 v1] [k2 v2] [H1 I1]%list_elem_of_filter [H2 I2]%list_elem_of_filter.
      cbn [fst] in H1, H2.
      apply (range_elem range1 decoded k1 v1 Hp1) in I1.
      apply (range_elem range1 decoded k2 v2 Hp1) in I2.
      assert (k1 = k2) by (apply (Hd k1 k2 v1 v2); congruence).
      subst k2. congruence. }
  now rewrite Hf.
Qed.

Lemma checkWriteHeaderCode_iff (code : Z) :
  checkWriteHeaderCode code = true <-> 100 <= code <= 999.
Proof. unfold checkWriteHeaderCode. rewrite andb_true_iff, !Z.leb_le. tauto. Qed.

Lemma canonical_content_type : CanonicalMIMEHeaderKey "Content-Type" = "Content-Type".
Proof. vm_compute. reflexivity. Qed.

Lemma Header_Get_content_type (h : Header) :
  Header_Get "Content-Type" h
  = match h !! "Content-Type" with Some (v :: _) => v | _ => "" end.
Proof. unfold Header_Get. now rewrite canonical_content_type. Qed.

Lemma decoded_content_type_last range (mockResp : MockResponse) :
  decoded_content_type range mockResp
  = match last (filter (fun kv => CanonicalMIMEHeaderKey (fst kv) = "Content-Type")
                  (range (parseHeaders (Headers mockResp)))) with
    | Some kv => snd kv
    | None => ""
    end.
Proof.
  unfold decoded_content_type. rewrite Header_Get_content_type.
  destruct (apply_headers_fields range (parseHeaders (Headers mockResp)) fresh_writer)
    as (-> & _ & _).
  rewrite foldl_Header_Set_lookup. cbn [header fresh_writer].
  now destruct (last _).
Qed.

(** C5, as the program has it: for a record whose status code is zero or
    within 100..999, the status written is the record's status code, or 200
    when that is zero, and the body written is the record's response body,
    byte for byte.  For any other status code [WriteHeader] panics: no
    status and no body are written.  In every case [Content-Type] becomes
    [application/json] exactly when its value is empty after the decoded
    headers were applied.  That is the case when no decoded key names
    [Content-Type] (in any letter case); it is not the case when some
    decoded key does and every such key has a non-empty value (the stored
    value is then kept).  A decoded [Content-Type] with an empty value is
    replaced by the default.  The order in which the map of decoded headers
    is visited is arbitrary.  [main.go] writes a found record the same
    way. *)
Theorem C5_materialized_response range (mockResp : MockResponse) :
  (forall m, range m ≡ₚ map_to_list m) ->
  let w := writeResponse range fresh_writer mockResp in
  let decoded := parseHeaders (Headers mockResp) in
  let stored := header (apply_headers range decoded fresh_writer) in
  let ct := decoded_content_type range mockResp in
  (ResponseStatusCode mockResp = 0 ->
     wroteHeader w = Some 200 /\ written w = ResponseBody mockResp
     /\ panicked w = false)
  /\ (100 <= ResponseStatusCode mockResp <= 999 ->
        wroteHeader w = Some (ResponseStatusCode mockResp)
        /\ written w = ResponseBody mockResp /\ panicked w = false)
  /\ (ResponseStatusCode mockResp <> 0 ->
      ~ (100 <= ResponseStatusCode mockResp <= 999) ->
        panicked w = true /\ wroteHeader w = None /\ written w = "")
  /\ (ct = "" -> header w = <["Content-Type" := ["application/json"]]> stored)
  /\ (ct <> "" -> header w = stored)
  /\ Header_Get "Content-Type" (header w)
     = (if String.eqb ct "" then "application/json" else ct)
  /\ ((forall k v, decoded !! k = Some v ->
                   CanonicalMIMEHeaderKey k <> "Content-Type") -> ct = "")
  /\ ((exists k v, decoded !! k = Some v /\ CanonicalMIMEHeaderKey k = "Content-Type") ->
      (forall k v, decoded !! k = Some v ->
                   CanonicalMIMEHeaderKey k = "Content-Type" -> v <> "") ->
      ct <> "" /\ exists k, decoded !! k = Some ct
                            /\ CanonicalMIMEHeaderKey k = "Content-Type")
  /\ (forall p mth s,
        MainGo.write_found range fresh_writer
          (MainGo.mkMockResponse p mth (ResponseBody mockResp)
             (ResponseStatusCode mockResp) s)
        = writeResponse range fresh_writer
            (mkMockResponse (ResponseBody mockResp) (ResponseStatusCode mockResp)
               (mkNullString s true))).
Proof.
  intros Hperm w decoded stored ct.
  destruct (apply_headers_fields range decoded fresh_writer) as (_ & Hwh & Hwr).
  pose proof (apply_headers_panicked range decoded fresh_writer) as Hwp.
  cbn [wroteHeader written panicked fresh_writer] in Hwh, Hwr, Hwp.
  set (w1 := apply_headers range decoded fresh_writer) in *.
  set (w2 := if String.eqb ct ""
             then update_header (Header_Set "Content-Type" "application/json") w1
             else w1).
  assert (Hw2 : wroteHeader w2 = None /\ written w2 = "" /\ panicked w2 = false).
  { subst w2. destruct (String.eqb ct ""); cbn; auto. }
  set (sc := if ResponseStatusCode mockResp =? 0 then StatusOK
             else ResponseStatusCode mockResp).
  assert (Hw : w = if checkWriteHeaderCode sc
                   then mkResponseWriter (header w2) (Some sc) (ResponseBody mockResp) false
                   else mkResponseWriter (header w2) None "" true).
  { subst w. unfold writeResponse. fold decoded. fold w1.
    change (Header_Get "Content-Type" (header w1)) with ct. fold w2. fold sc.
    destruct Hw2 as (? & ? & ?). now apply WriteHeader_then_Write_fresh. }
  assert (Hhdr : header w = header w2).
  { rewrite Hw. now destruct (checkWriteHeaderCode sc). }
  assert (Hempty : ct = "" -> header w = <["Content-Type" := ["application/json"]]> stored).
  { intros E. rewrite Hhdr. subst w2. rewrite E. cbn.
    unfold Header_Set. now rewrite canonical_content_type. }
  assert (Hset : ct <> "" -> header w = stored).
  { intros E. rewrite Hhdr. subst w2. now rewrite (eqb_empty_false _ E). }
  split.
  { intros Hc. rewrite Hw. subst sc. rewrite Hc. cbn. auto. }
  split.
  { intros Hc. rewrite Hw. subst sc.
    assert (Hz : (ResponseStatusCode mockResp =? 0) = false)
      by (apply Z.eqb_neq; lia).
    rewrite Hz. apply checkWriteHeaderCode_iff in Hc. rewrite Hc. cbn. auto. }
  split.
  { intros Hz Hc. rewrite Hw. subst sc. apply Z.eqb_neq in Hz. rewrite Hz.
    destruct (checkWriteHeaderCode (ResponseStatusCode mockResp)) eqn:E;
      [apply checkWriteHeaderCode_iff in E; now destruct Hc | cbn; auto]. }
  split; [exact Hempty|].
  split; [exact Hset|].
  split.
  { destruct (String.eqb_spec ct "") as [E|E].
    - rewrite (Hempty E), Header_Get_content_type, lookup_insert_eq. reflexivity.
    - rewrite (Hset E). reflexivity. }
  split.
  { intros Hnone. subst ct. rewrite decoded_content_type_last. fold decoded.
    destruct (last _) as [[k v]|] eqn:E; [|reflexivity].
    apply last_filter_Some in E as [Hk Hin].
    apply (range_elem range decoded k v Hperm) in Hin.
    now destruct (Hnone k v Hin). }
  split.
  { intros (k & v & Hkv & Hk) Hne. subst ct.
    rewrite decoded_content_type_last. fold decoded.
    destruct (last _) as [[k' v']|] eqn:E.
    - apply last_filter_Some in E as [Hk' Hin]. cbn [fst snd] in *.
      apply (range_elem range decoded k' v' Hperm) in Hin.
      split; [now apply (Hne k' v')|]. eauto.
    - apply (range_elem range decoded k v Hperm) in Hkv.
      now destruct (last_filter_None _ _ (k, v) E Hkv). }
  intros p mth s. unfold MainGo.write_found, writeResponse. cbn.
  now rewrite MainGo_parseHeaders_eq.
Qed.

Lemma C5_materialized_response_witness :
  let mockResp :=
    mkMockResponse (json "{'id':124}") 201 (mkNullString "content-type=text/plain;X-Test=1" true) in
  let w := writeResponse sample_range fresh_writer mockResp in
  let decoded := parseHeaders (Headers mockResp) in
  let stored := header (apply_headers sample_range decoded fresh_writer) in
  let ct := decoded_content_type sample_range mockResp in
  (ResponseStatusCode mockResp = 0 ->
     wroteHeader w = Some 200 /\ written w = ResponseBody mockResp
     /\ panicked w = false)
  /\ (100 <= ResponseStatusCode mockResp <= 999 ->
        wroteHeader w = Some (ResponseStatusCode mockResp)
        /\ written w = ResponseBody mockResp /\ panicked w = false)
  /\ (ResponseStatusCode mockResp <> 0 ->
      ~ (100 <= ResponseStatusCode mockResp <= 999) ->
        panicked w = true /\ wroteHeader w = None /\ written w = "")
  /\ (ct = "" -> header w = <["Content-Type" := ["application/json"]]> stored)
  /\ (ct <> "" -> header w = stored)
  /\ Header_Get "Content-Type" (header w)
     = (if String.eqb ct "" then "application/json" else ct)
  /\ ((forall k v, decoded !! k = Some v ->
                   CanonicalMIMEHeaderKey k <> "Content-Type") -> ct = "")
  /\ ((exists k v, decoded !! k = Some v /\ CanonicalMIMEHeaderKey k = "Content-Type") ->
      (forall k v, decoded !! k = Some v ->
                   CanonicalMIMEHeaderKey k = "Content-Type" -> v <> "") ->
      ct <> "" /\ exists k, decoded !! k = Some ct
                            /\ CanonicalMIMEHeaderKey k = "Content-Type")
  /\ (forall p mth s,
        MainGo.write_found sample_range fresh_writer
          (MainGo.mkMockResponse p mth (ResponseBody mockResp)
             (ResponseStatusCode mockResp) s)
        = writeResponse sample_range fresh_writer
            (mkMockResponse (ResponseBody mockResp) (ResponseStatusCode mockResp)
               (mkNullString s true))).
Proof.
  exact (C5_materialized_response sample_range
           (mkMockResponse (json "{'id':124}") 201
              (mkNullString "content-type=text/plain;X-Test=1" true))
           (fun m => reflexivity (map_to_list m))).
Defined.

(** C5 as stated fails: the decoded headers of this record do set
    [Content-Type] (to the empty string), and the response is given
    [application/json] all the same. *)
Lemma C5_default_replaces_a_decoded_content_type :
  parseHeaders (Headers empty_content_type) !! "Content-Type" = Some ""
  /\ header (apply_headers sample_range (parseHeaders (Headers empty_content_type))
               fresh_writer) !! "Content-Type" = Some [""]
  /\ header (writeResponse sample_range fresh_writer empty_content_type)
       !! "Content-Type" = Some ["application/json"].
Proof. repeat split; vm_compute; reflexivity. Qed.

(* ===================================================================== *)
(** * Further properties                                                  *)
(* ===================================================================== *)

(** ** Connection lifecycle and start-up *)

Lemma initDB_calls_cons (env : Dial) (envs : list Dial) (g : Globals) :
  initDB_calls (env :: envs) g
  = (fst (fst (initDB env g)) :: replicate (length envs) None,
     snd (fst (initDB env g)),
     snd (initDB env g)).
Proof.
  cbn [initDB_calls].
  pose proof (initDB_sets_done env g) as Hd.
  destruct (initDB env g) as [[e g1] a1]. cbn [fst snd] in *.
  rewrite (initDB_calls_done envs g1 Hd). now rewrite app_nil_r.
Qed.

Lemma initDB_trace_counts (env : Dial) (g : Globals) :
  (count_actions is_ActOpen (snd (initDB env g)) <= 1)%nat
  /\ (count_actions is_ActPing (snd (initDB env g)) <= 1)%nat
  /\ (count_actions is_ActClose (snd (initDB env g)) <= 1)%nat.
Proof.
  unfold initDB. destruct (once_done g); [cbn; lia|].
  destruct (open_error env); [cbn; lia|].
  destruct (ping_error env); cbn; lia.
Qed.

(** X1: when the pool opens and the probe succeeds on the first call,
    [initDB] returns no error and leaves a usable pool limited to 10 open
    and 5 idle connections, recycled after 15 minutes of life or 3 minutes
    of idleness; every later call returns no error, makes no call on the
    outside world and leaves that pool in place, even if the server could
    no longer be reached by then. *)
Theorem initDB_success_keeps_configured_pool (env : Dial) (g : Globals) :
  once_done g = false -> open_error env = None -> ping_error env = None ->
  let '(err, g', acts) := initDB env g in
  err = None
  /\ usable g'
  /\ db g' = Some (mkPool false (Some 10) (Some 5) (Some 15) (Some 3))
  /\ count_actions is_ActClose acts = 0%nat
  /\ (forall envs, initDB_calls envs g' = (replicate (length envs) None, g', [])).
Proof.
  intros Hg Ho Hp. unfold initDB. rewrite Hg, Ho, Hp.
  split; [reflexivity|].
  split; [eexists; split; reflexivity|].
  split; [reflexivity|].
  split; [reflexivity|].
  intros envs. now apply initDB_calls_done.
Qed.

Lemma initDB_success_keeps_configured_pool_witness :
  let '(err, g', acts) := initDB (mkDial None None) initial_globals in
  err = None
  /\ usable g'
  /\ db g' = Some (mkPool false (Some 10) (Some 5) (Some 15) (Some 3))
  /\ count_actions is_ActClose acts = 0%nat
  /\ (forall envs, initDB_calls envs g' = (replicate (length envs) None, g', [])).
Proof.
  exact (initDB_success_keeps_configured_pool (mkDial None None) initial_globals
           eq_refl eq_refl eq_refl).
Defined.

(** X2: over any sequence of calls of [initDB], from any state of the
    package variables, the pool is opened at most once, probed at most once
    and closed at most once; only the first call of a sequence can return an
    error or act on the outside world, and the state it leaves is the state
    at the end of the sequence. *)
Theorem initDB_acts_at_most_once (envs : list Dial) (g : Globals) :
  let '(errs, g', trace) := initDB_calls envs g in
  (count_actions is_ActOpen trace <= 1)%nat
  /\ (count_actions is_ActPing trace <= 1)%nat
  /\ (count_actions is_ActClose trace <= 1)%nat
  /\ length errs = length envs
  /\ (forall i e, errs !! i = Some (Some e) -> i = 0%nat)
  /\ (forall env rest, envs = env :: rest ->
        trace = snd (initDB env g) /\ g' = snd (fst (initDB env g))).
Proof.
  destruct envs as [|env envs].
  - cbn. repeat split; try lia; discriminate.
  - rewrite initDB_calls_cons.
    destruct (initDB_trace_counts env g) as (H1 & H2 & H3).
    split; [exact H1|]. split; [exact H2|]. split; [exact H3|].
    split; [cbn; now rewrite length_replicate|].
    split.
    + intros [|i] e Hi; [reflexivity|]. cbn in Hi.
      apply lookup_replicate in Hi as [Hi _]. discriminate Hi.
    + intros env' rest [= <- <-]. split; reflexivity.
Qed.

Ltac unfold_elems := repeat first [ rewrite elem_of_cons | rewrite elem_of_nil ].

Ltac solve_elems :=
  unfold_elems; intuition (simplify_eq; unfold_elems; auto 12).

(** X3: started with fresh package variables, [main] starts the listener
    exactly when the pool opened and the probe succeeded.  In that case the
    pool is usable, the handler is registered for the seven methods on
    [/*path] before the listener starts, and [main] never closes the pool;
    while the listener has not returned nothing follows its start, and when
    it returns with an error the process exits through [log.Fatal] with
    that error.  Otherwise the process exits with the failure of the
    initialization logged, no route is registered and no pool is usable. *)
Theorem main_listens_only_after_successful_init (env : Dial)
    (serve_error : option string) :
  let '(trace, g') := main env serve_error initial_globals in
  (listens trace <-> open_error env = None /\ ping_error env = None)
  /\ (listens trace ->
        usable g'
        /\ (forall m, m ∈ ["GET"; "POST"; "PUT"; "DELETE"; "PATCH"; "OPTIONS"; "HEAD"] ->
                      EvHandle m "/*path" ∈ trace)
        /\ (forall m p, EvHandle m p ∈ trace ->
                        p = "/*path"
                        /\ m ∈ ["GET"; "POST"; "PUT"; "DELETE"; "PATCH"; "OPTIONS"; "HEAD"])
        /\ (EvInit ActClose ∉ trace)
        /\ (serve_error = None -> last trace = Some (EvListen ":8080"))
        /\ (forall e, serve_error = Some e -> last trace = Some (EvFatal e)))
  /\ (~ listens trace ->
        ~ usable g'
        /\ (forall m p, EvHandle m p ∉ trace)
        /\ exists e, last trace
                     = Some (EvFatal ("Database initialization failed:" ++ e))).
Proof.
  destruct env as [[eo|] [ep|]]; cbn; unfold listens, usable; cbn.
  - split; [split; [intros [addr H]; revert H; solve_elems | intros [? _]; discriminate]|].
    split; [intros [addr H]; revert H; solve_elems|].
    intros _. split; [intros (p & ? & _); discriminate|].
    split; [intros m p; solve_elems | eauto].
  - split; [split; [intros [addr H]; revert H; solve_elems | intros [? _]; discriminate]|].
    split; [intros [addr H]; revert H; solve_elems|].
    intros _. split; [intros (p & ? & _); discriminate|].
    split; [intros m p; solve_elems | eauto].
  - split; [split; [intros [addr H]; revert H; solve_elems | intros [_ ?]; discriminate]|].
    split; [intros [addr H]; revert H; solve_elems|].
    intros _. split; [intros (p & [= <-] & ?); discriminate|].
    split; [intros m p; solve_elems | eauto].
  - destruct serve_error as [se|]; cbn.
    + split; [split; [auto | intros _; exists ":8080"; solve_elems]|].
      split.
      { intros _. split; [eexists; split; reflexivity|].
        split; [intros m; solve_elems|].
        split; [intros m p; solve_elems|].
        split; [solve_elems|].
        split; [discriminate | now intros e [= <-]]. }
      intros H. destruct H. exists ":8080". solve_elems.
    + split; [split; [auto | intros _; exists ":8080"; solve_elems]|].
      split.
      { intros _. split; [eexists; split; reflexivity|].
        split; [intros m; solve_elems|].
        split; [intros m p; solve_elems|].
        split; [solve_elems|].
        split; [reflexivity | discriminate]. }
      intros H. destruct H. exists ":8080". solve_elems.
Qed.

(** ** Request normalizer *)

(** X4: the full path does not tell a question mark of the path from the
    one that starts the query: a request whose path is [p?q] with no query
    string has the lookup key of the request with path [p] and query string
    [q]. *)
Theorem buildFullPath_question_mark_in_path (m p q : string) (b b' : option Reader) :
  q <> "" ->
  buildFullPath (mkRequest m (p ++ "?" ++ q) "" b) = buildFullPath (mkRequest m p q b')
  /\ MainGo.buildFullPath (mkRequest m (p ++ "?" ++ q) "" b)
     = MainGo.buildFullPath (mkRequest m p q b').
Proof.
  intros Hq. unfold MainGo.buildFullPath, buildFullPath. cbn.
  now rewrite (eqb_empty_false _ Hq).
Qed.

Lemma buildFullPath_question_mark_in_path_witness :
  buildFullPath (mkRequest "GET" ("/a" ++ "?" ++ "b=1") "" None)
  = buildFullPath (mkRequest "GET" "/a" "b=1" None)
  /\ MainGo.buildFullPath (mkRequest "GET" ("/a" ++ "?" ++ "b=1") "" None)
     = MainGo.buildFullPath (mkRequest "GET" "/a" "b=1" None).
Proof.
  refine (buildFullPath_question_mark_in_path "GET" "/a" "b=1" None None _).
  discriminate.
Defined.

(** ** The handler of [main.go] *)

Lemma MainGo_proxyHandler_cases range (conn : MainGo.DB) (w : ResponseWriter)
    (r : Request) :
  let q := SelectPathMethod (MainGo.buildFullPath r) (Method r) in
  let res := match conn q with
             | inl cols => MainGo.scan_columns cols
             | inr e => inr e
             end in
  MainGo.round_trips (MainGo.proxyHandler range conn w r) = [mkRoundTrip 5 q]
  /\ MainGo.response (MainGo.proxyHandler range conn w r)
     = match res with
       | inl mockResp => MainGo.write_found range w mockResp
       | inr e => if is_ErrNoRows e then NotFound w
                  else Error "Internal server error" StatusInternalServerError w
       end
  /\ MainGo.log (MainGo.proxyHandler range conn w r)
     = match res with
       | inl _ => []
       | inr e => if is_ErrNoRows e then [] else ["Database error: " ++ error_text e]
       end.
Proof.
  unfold MainGo.proxyHandler, MainGo.getMockResponse. cbv zeta.
  destruct (match conn _ with inl cols => MainGo.scan_columns cols | inr e => inr e end)
    as [mr|[|msg]]; cbn; repeat split; reflexivity.
Qed.

(** X5: the handler of [main.go] never looks at the request body: for
    every request it makes exactly one round trip, with the path-and-method
    statement for the full path and the method and a timeout of five
    seconds, and everything it does is the same whatever the body is (absent,
    readable or broken). *)
Theorem MainGo_handler_ignores_the_body range (conn : MainGo.DB)
    (w : ResponseWriter) (r : Request) :
  MainGo.round_trips (MainGo.proxyHandler range conn w r)
  = [mkRoundTrip 5 (SelectPathMethod (MainGo.buildFullPath r) (Method r))]
  /\ (forall b, MainGo.proxyHandler range conn w (set_Body r b)
                = MainGo.proxyHandler range conn w r)
  /\ MainGo.stdout (MainGo.proxyHandler range conn w r)
     = ["Method: " ++ Method r ++ ", Path: " ++ MainGo.buildFullPath r ++ newline].
Proof.
  split; [apply MainGo_proxyHandler_cases|].
  split; [intros b; reflexivity|].
  unfold MainGo.proxyHandler, MainGo.getMockResponse. cbv zeta.
  destruct (match conn _ with inl cols => MainGo.scan_columns cols | inr e => inr e end)
    as [mr|[|msg]]; reflexivity.
Qed.

(** X6: in [main.go] a lookup without a row is answered 404, and every
    other failure 500 with the fixed text [Internal server error] and the
    cause in the log only.  A row whose [response_body], [headers] or
    [response_status_code] is NULL does not scan and is answered 500 as
    well; a row without NULLs is written out with its own status, headers
    and body. *)
Theorem MainGo_lookup_outcomes range (conn : MainGo.DB) (w : ResponseWriter)
    (r : Request) :
  wroteHeader w = None ->
  let h := MainGo.proxyHandler range conn w r in
  let res := conn (SelectPathMethod (MainGo.buildFullPath r) (Method r)) in
  (res = inr ErrNoRows ->
     MainGo.response h = NotFound w
     /\ wroteHeader (MainGo.response h) = Some StatusNotFound
     /\ MainGo.log h = [])
  /\ (forall msg, res = inr (ErrOther msg) ->
        MainGo.response h = Error "Internal server error" StatusInternalServerError w
        /\ wroteHeader (MainGo.response h) = Some StatusInternalServerError
        /\ written (MainGo.response h) = written w ++ "Internal server error" ++ newline
        /\ MainGo.log h = ["Database error: " ++ msg])
  /\ (forall cols, res = inl cols ->
        MainGo.col_response_body cols = None \/ MainGo.col_headers cols = None
        \/ MainGo.col_response_status_code cols = None ->
        MainGo.response h = Error "Internal server error" StatusInternalServerError w
        /\ wroteHeader (MainGo.response h) = Some StatusInternalServerError
        /\ exists line, MainGo.log h = [line])
  /\ (forall p m body hs code,
        res = inl (MainGo.mkColumns p m (Some body) (Some hs) (Some code)) ->
        MainGo.response h
        = MainGo.write_found range w (MainGo.mkMockResponse p m body code hs)
        /\ MainGo.log h = []).
Proof.
  intros Hw h res.
  destruct (MainGo_proxyHandler_cases range conn w r) as (_ & E1 & E3).
  cbv zeta in E1, E3. fold res in E1, E3. fold h in E1, E3. clearbody h res.
  split.
  { intros Hres. rewrite Hres in E1, E3. cbn in E1, E3. rewrite E1, E3.
    repeat split. now apply wroteHeader_Error. }
  split.
  { intros msg Hres. rewrite Hres in E1, E3. cbn in E1, E3.
    rewrite E1, E3. rewrite written_Error by reflexivity.
    rewrite wroteHeader_Error by first [exact Hw | reflexivity]. tauto. }
  split.
  { intros cols Hres Hnull. rewrite Hres in E1, E3.
    assert (Hscan : exists msg, MainGo.scan_columns cols = inr (ErrOther msg)).
    { unfold MainGo.scan_columns.
      destruct (MainGo.col_response_body cols); [|eauto].
      destruct (MainGo.col_headers cols); [|eauto].
      destruct (MainGo.col_response_status_code cols); [|eauto].
      destruct Hnull as [?|[?|?]]; discriminate. }
    destruct Hscan as [msg Hscan]. rewrite Hscan in E1, E3. cbn in E1, E3.
    rewrite E1, E3. rewrite wroteHeader_Error by first [exact Hw | reflexivity].
    eauto. }
  intros p m body hs code Hres. rewrite Hres in E1, E3. cbn in E1, E3.
  now rewrite E1, E3.
Qed.

Lemma MainGo_lookup_outcomes_witness :
  let conn : MainGo.DB :=
    fun _ => inl (MainGo.mkColumns "/api/users/123" "GET" (Some "{}") None (Some 200)) in
  let r := mkRequest "GET" "/api/users/123" "" None in
  let h := MainGo.proxyHandler sample_range conn fresh_writer r in
  let res := conn (SelectPathMethod (MainGo.buildFullPath r) (Method r)) in
  (res = inr ErrNoRows ->
     MainGo.response h = NotFound fresh_writer
     /\ wroteHeader (MainGo.response h) = Some StatusNotFound
     /\ MainGo.log h = [])
  /\ (forall msg, res = inr (ErrOther msg) ->
        MainGo.response h
        = Error "Internal server error" StatusInternalServerError fresh_writer
        /\ wroteHeader (MainGo.response h) = Some StatusInternalServerError
        /\ written (MainGo.response h)
           = written fresh_writer ++ "Internal server error" ++ newline
        /\ MainGo.log h = ["Database error: " ++ msg])
  /\ (forall cols, res = inl cols ->
        MainGo.col_response_body cols = None \/ MainGo.col_headers cols = None
        \/ MainGo.col_response_status_code cols = None ->
        MainGo.response h
        = Error "Internal server error" StatusInternalServerError fresh_writer
        /\ wroteHeader (MainGo.response h) = Some StatusInternalServerError
        /\ exists line, MainGo.log h = [line])
  /\ (forall p m body hs code,
        res = inl (MainGo.mkColumns p m (Some body) (Some hs) (Some code)) ->
        MainGo.response h
        = MainGo.write_found sample_range fresh_writer
            (MainGo.mkMockResponse p m body code hs)
        /\ MainGo.log h = []).
Proof.
  exact (MainGo_lookup_outcomes sample_range
           (fun _ => inl (MainGo.mkColumns "/api/users/123" "GET" (Some "{}") None (Some 200)))
           fresh_writer (mkRequest "GET" "/api/users/123" "" None) eq_refl).
Defined.

(** ** The body-aware handler *)

Lemma proxyHandler_request range (conn : DB) (w : ResponseWriter) (r : Request) :
  readable r -> request (proxyHandler range conn w r) = after_read r.
Proof.
  unfold readable, after_read, proxyHandler, readRequestBody.
  destruct (Body r) as [rd|].
  - intros Hf. unfold ReadAll. rewrite Hf. cbv zeta.
    split_validated. unfold getMockResponse.
    destruct (conn _) as [[? ? [?|]]|[|?]]; reflexivity.
  - intros _. cbv zeta. split_validated. unfold getMockResponse.
    destruct (conn _) as [[? ? [?|]]|[|?]]; reflexivity.
Qed.

Lemma proxyHandler_after_read range (conn : DB) (w : ResponseWriter) (r : Request) :
  readable r -> proxyHandler range conn w (after_read r) = proxyHandler range conn w r.
Proof.
  destruct r as [m p q [[pend [f|]]|]]; unfold readable; cbn;
    intros H; first [discriminate H | reflexivity].
Qed.

(** X7: handling a request leaves it in a state in which it can be handled
    again: for a request whose body could be read, the request left behind
    is readable with the same bytes, and a second run of the handler on it
    (same store, any order of visiting the decoded headers, which the
    runtime picks anew) sends the same statement, writes the same log and
    leaves the same request.  The response is the same as well whenever the
    row found has no two stored headers naming the same header field; the
    answers 404 and 500 are the same in any case. *)
Theorem proxyHandler_can_be_repeated range1 range2 (conn : DB) (w : ResponseWriter)
    (r : Request) :
  (forall m, range1 m ≡ₚ map_to_list m) ->
  (forall m, range2 m ≡ₚ map_to_list m) ->
  readable r ->
  let h1 := proxyHandler range1 conn w r in
  let h2 := proxyHandler range2 conn w (request h1) in
  readable (request h1)
  /\ body_bytes (request h1) = body_bytes r
  /\ round_trips h2 = round_trips h1
  /\ log h2 = log h1
  /\ request h2 = request h1
  /\ ((forall cols, conn (handler_query r) = inl cols ->
         distinct_fields (parseHeaders (scan_NullString (GoSQL.col_headers cols)))) ->
      response h2 = response h1).
Proof.
  intros Hp1 Hp2 Hr h1 h2. subst h2 h1.
  rewrite (proxyHandler_request range1 conn w r Hr).
  assert (Hr' : readable (after_read r)).
  { clear Hr. destruct r as [m p q [rd|]]; unfold readable, after_read; cbn;
      [reflexivity | exact I]. }
  assert (Hb : body_bytes (after_read r) = body_bytes r)
    by (destruct r as [m p q [rd|]]; reflexivity).
  assert (Hq : handler_query (after_read r) = handler_query r).
  { unfold handler_query. rewrite Hb. destruct r as [m p q [rd|]]; reflexivity. }
  assert (Hpm : buildFullPath (after_read r) = buildFullPath r
                /\ Method (after_read r) = Method r)
    by (destruct r as [m p q [rd|]]; split; reflexivity).
  destruct Hpm as [Hpath Hmeth].
  destruct (proxyHandler_readable range1 conn w r Hr) as (A1 & A2 & A3).
  destruct (proxyHandler_readable range2 conn w (after_read r) Hr') as (B1 & B2 & B3).
  rewrite Hb, Hpath, Hmeth in B1, B3. rewrite Hq in B2.
  split; [exact Hr'|]. split; [exact Hb|].
  split; [now rewrite A2, B2|]. split; [now rewrite A3, B3|].
  split.
  { rewrite (proxyHandler_request range2 conn w (after_read r) Hr').
    destruct r as [m p q [rd|]]; reflexivity. }
  intros Hd. rewrite A1, B1, getMockResponse_result. fold (handler_query r).
  destruct (conn (handler_query r)) as [cols|e] eqn:Ec; [|reflexivity].
  unfold scan_columns. destruct (GoSQL.col_response_status_code cols); [|reflexivity].
  cbn [answer]. unfold writeResponse. cbn [Headers].
  now rewrite (apply_headers_any_order range2 range1 _ w Hp2 Hp1 (Hd cols eq_refl)).
Qed.

Lemma proxyHandler_can_be_repeated_witness :
  let conn := @table_db sample_pg post_users_table in
  let h1 := proxyHandler sample_range conn fresh_writer post_new_user in
  let h2 := proxyHandler (fun m => reverse (map_to_list m)) conn fresh_writer
              (request h1) in
  readable (request h1)
  /\ body_bytes (request h1) = body_bytes post_new_user
  /\ round_trips h2 = round_trips h1
  /\ log h2 = log h1
  /\ request h2 = request h1
  /\ ((forall cols, conn (handler_query post_new_user) = inl cols ->
         distinct_fields (parseHeaders (scan_NullString (GoSQL.col_headers cols)))) ->
      response h2 = response h1).
Proof.
  exact (proxyHandler_can_be_repeated sample_range (fun m => reverse (map_to_list m))
           (@table_db sample_pg post_users_table) fresh_writer post_new_user
           (fun m => reflexivity (map_to_list m))
           (fun m => reverse_Permutation (map_to_list m)) eq_refl).
Defined.

(** X8: a request without a body, or with a body that [json.Unmarshal]
    rejects, is never answered by a record that has a request body: when
    every record of the table for its path and method has one, the only
    lookup is the NULL-body statement and the answer is 404. *)
Theorem request_without_body_skips_records_with_bodies `{pg : Postgres} range
    (t : list Row) (w : ResponseWriter) (r : Request) :
  wroteHeader w = None -> readable r ->
  Unmarshal_ok (body_bytes r) = false ->
  (forall row, In row t -> path row = buildFullPath r -> method row = Method r ->
               request_body row <> None) ->
  round_trips (proxyHandler range (table_db t) w r)
  = [mkRoundTrip 5 (SelectNullBody (buildFullPath r) (Method r))]
  /\ response (proxyHandler range (table_db t) w r) = NotFound w
  /\ wroteHeader (response (proxyHandler range (table_db t) w r)) = Some StatusNotFound.
Proof.
  intros Hw Hr Hrej Hall.
  destruct (proxyHandler_readable range (table_db t) w r Hr) as (E1 & E2 & _).
  assert (Hq : handler_query r = SelectNullBody (buildFullPath r) (Method r)).
  { unfold handler_query. now rewrite (validateAndReturnJSON_rejected _ Hrej). }
  assert (Hnone : table_db t (SelectNullBody (buildFullPath r) (Method r))
                  = inr ErrNoRows).
  { cbn. apply first_row_none. intros row Hin.
    destruct (null_body_match _ _ row) eqn:Em; [|reflexivity].
    apply null_body_match_iff in Em as (Hp & Hm & Hb).
    now destruct (Hall row Hin Hp Hm). }
  rewrite E2, Hq. split; [reflexivity|].
  assert (Hresp : response (proxyHandler range (table_db t) w r) = NotFound w).
  { rewrite E1, getMockResponse_result. fold (handler_query r).
    rewrite Hq, Hnone. reflexivity. }
  rewrite Hresp. split; [reflexivity|]. now apply wroteHeader_Error.
Qed.

Lemma request_without_body_skips_records_with_bodies_witness :
  let t := [ @mkRow sample_pg "/api/users" "POST" (Some (json "{'name':'NewUser'}"))
               (json "{'id':124}") (Some 201) None ] in
  let r := mkRequest "POST" "/api/users" "" None in
  round_trips (proxyHandler sample_range (@table_db sample_pg t) fresh_writer r)
  = [mkRoundTrip 5 (SelectNullBody (buildFullPath r) (Method r))]
  /\ response (proxyHandler sample_range (@table_db sample_pg t) fresh_writer r)
     = NotFound fresh_writer
  /\ wroteHeader (response (proxyHandler sample_range (@table_db sample_pg t)
                              fresh_writer r)) = Some StatusNotFound.
Proof.
  refine (@request_without_body_skips_records_with_bodies sample_pg sample_range
            [ @mkRow sample_pg "/api/users" "POST" (Some (json "{'name':'NewUser'}"))
                (json "{'id':124}") (Some 201) None ]
            fresh_writer (mkRequest "POST" "/api/users" "" None)
            eq_refl I eq_refl _).
  intros row [<- | []] _ _. discriminate.
Defined.

Lemma writeResponse_status_body range (w : ResponseWriter) (mockResp : MockResponse) :
  wroteHeader w = None -> written w = "" -> panicked w = false ->
  let statusCode := if ResponseStatusCode mockResp =? 0 then StatusOK
                    else ResponseStatusCode mockResp in
  let w' := writeResponse range w mockResp in
  if checkWriteHeaderCode statusCode
  then wroteHeader w' = Some statusCode /\ written w' = ResponseBody mockResp
       /\ panicked w' = false
  else wroteHeader w' = None /\ written w' = "" /\ panicked w' = true.
Proof.
  intros Hw Hb Hp statusCode w'. subst w'. unfold writeResponse.
  destruct (apply_headers_fields range (parseHeaders (Headers mockResp)) w)
    as (_ & Hwh & Hwr).
  pose proof (apply_headers_panicked range (parseHeaders (Headers mockResp)) w) as Hpn.
  rewrite Hw in Hwh. rewrite Hb in Hwr. rewrite Hp in Hpn.
  set (w1 := apply_headers range (parseHeaders (Headers mockResp)) w) in *.
  set (w2 := if String.eqb (Header_Get "Content-Type" (header w1)) ""
             then update_header (Header_Set "Content-Type" "application/json") w1
             else w1).
  assert (Hw2 : wroteHeader w2 = None /\ written w2 = "" /\ panicked w2 = false).
  { subst w2. destruct (String.eqb _ ""); cbn; auto. }
  destruct Hw2 as (H1 & H2 & H3).
  fold statusCode.
  rewrite (WriteHeader_then_Write_fresh _ statusCode w2 H1 H2 H3).
  destruct (checkWriteHeaderCode statusCode); repeat split.
Qed.

(** X9: when the lookup of a readable request returns a row with a status,
    the handler answers with that row: the response is [writeResponse] of
    the scanned record, nothing is logged and the store was asked once.
    For a status of 0 or from 100 to 999 the status written is the row's
    status (200 for zero) and the body is the row's [response_body] byte
    for byte; for any other status [WriteHeader] panics, and neither a
    status nor a body is written. *)
Theorem found_record_is_written_out range (conn : DB) (w : ResponseWriter)
    (r : Request) (cols : GoSQL.Columns) (code : Z) :
  wroteHeader w = None -> written w = "" -> panicked w = false -> readable r ->
  conn (handler_query r) = inl cols ->
  GoSQL.col_response_status_code cols = Some code ->
  let h := proxyHandler range conn w r in
  response h
  = writeResponse range w
      (mkMockResponse (GoSQL.col_response_body cols) code
         (scan_NullString (GoSQL.col_headers cols)))
  /\ (code = 0 \/ 100 <= code <= 999 ->
      wroteHeader (response h) = Some (if code =? 0 then 200 else code)
      /\ written (response h) = GoSQL.col_response_body cols
      /\ panicked (response h) = false)
  /\ (code <> 0 -> ~ (100 <= code <= 999) ->
      panicked (response h) = true
      /\ wroteHeader (response h) = None
      /\ written (response h) = "")
  /\ log h = []
  /\ round_trips h = [mkRoundTrip 5 (handler_query r)].
Proof.
  intros Hw Hb Hp Hr Hres Hcode h.
  destruct (proxyHandler_readable range conn w r Hr) as (E1 & E2 & E3).
  fold h in E1, E2, E3. rewrite getMockResponse_result in E1, E3.
  fold (handler_query r) in E1, E3. rewrite Hres in E1, E3.
  unfold scan_columns in E1, E3. rewrite Hcode in E1, E3.
  clearbody h. cbn in E1, E3. rewrite E1, E2, E3.
  pose proof (writeResponse_status_body range w
                (mkMockResponse (GoSQL.col_response_body cols) code
                   (scan_NullString (GoSQL.col_headers cols))) Hw Hb Hp) as S.
  cbv zeta in S. cbn [ResponseStatusCode ResponseBody] in S. unfold StatusOK in S.
  split; [reflexivity|]. split; [|split; [|split; reflexivity]].
  - intros Hrange.
    assert (Hc : checkWriteHeaderCode (if code =? 0 then 200 else code) = true).
    { apply checkWriteHeaderCode_iff. destruct (Z.eqb_spec code 0); lia. }
    rewrite Hc in S. exact S.
  - intros Hnz Hout.
    assert (Hc : checkWriteHeaderCode (if code =? 0 then 200 else code) = false).
    { destruct (Z.eqb_spec code 0) as [?|_]; [contradiction|].
      destruct (checkWriteHeaderCode code) eqn:E; [|reflexivity].
      apply checkWriteHeaderCode_iff in E. contradiction. }
    rewrite Hc in S. destruct S as (S1 & S2 & S3). auto.
Qed.

Lemma found_record_is_written_out_witness :
  let cols := GoSQL.mkColumns (json "{'id':123,'name':'John Doe'}") None (Some 0) in
  let conn : DB := fun _ => inl cols in
  let r := mkRequest "GET" "/api/users/123" "" None in
  let h := proxyHandler sample_range conn fresh_writer r in
  response h
  = writeResponse sample_range fresh_writer
      (mkMockResponse (GoSQL.col_response_body cols) 0
         (scan_NullString (GoSQL.col_headers cols)))
  /\ (0 = 0 \/ 100 <= 0 <= 999 ->
      wroteHeader (response h) = Some (if 0 =? 0 then 200 else 0)
      /\ written (response h) = GoSQL.col_response_body cols
      /\ panicked (response h) = false)
  /\ (0 <> 0 -> ~ (100 <= 0 <= 999) ->
      panicked (response h) = true
      /\ wroteHeader (response h) = None
      /\ written (response h) = "")
  /\ log h = []
  /\ round_trips h = [mkRoundTrip 5 (handler_query r)].
Proof.
  exact (found_record_is_written_out sample_range
           (fun _ => inl (GoSQL.mkColumns (json "{'id':123,'name':'John Doe'}") None (Some 0)))
           fresh_writer (mkRequest "GET" "/api/users/123" "" None)
           (GoSQL.mkColumns (json "{'id':123,'name':'John Doe'}") None (Some 0)) 0
           eq_refl eq_refl eq_refl I eq_refl eq_refl).
Defined.

(** ** Stored headers on the response *)

Lemma header_Write_WriteHeader (body : string) (code : Z) (w : ResponseWriter) :
  header (WriteHeader_then code (Write body) w) = header w.
Proof.
  unfold WriteHeader_then, WriteHeader_panics, WriteHeader, Write.
  destruct w as [h [c|] b p]; cbn; [reflexivity|].
  destruct (checkWriteHeaderCode code); reflexivity.
Qed.

Lemma writeResponse_header range (w : ResponseWriter) (mockResp : MockResponse) :
  let stored := foldl (fun h kv => Header_Set (fst kv) (snd kv) h) (header w)
                  (range (parseHeaders (Headers mockResp))) in
  header (writeResponse range w mockResp)
  = if String.eqb (Header_Get "Content-Type" stored) ""
    then <["Content-Type" := ["application/json"]]> stored
    else stored.
Proof.
  cbv zeta. unfold writeResponse. rewrite header_Write_WriteHeader.
  destruct (apply_headers_fields range (parseHeaders (Headers mockResp)) w)
    as (Hh & _ & _).
  rewrite <- Hh.
  destruct (String.eqb _ ""); [|reflexivity].
  cbn. unfold Header_Set at 1. now rewrite canonical_content_type.
Qed.

Lemma stored_lookup_Some range (decoded : gmap string string) (c : string)
    (vs : list string) :
  (forall m, range m ≡ₚ map_to_list m) ->
  foldl (fun h kv => Header_Set (fst kv) (snd kv) h) ∅ (range decoded) !! c = Some vs ->
  exists k v, decoded !! k = Some v /\ CanonicalMIMEHeaderKey k = c /\ vs = [v].
Proof.
  intros Hperm. rewrite foldl_Header_Set_lookup, lookup_empty.
  destruct (last _) as [[k v]|] eqn:E; [|discriminate].
  intros [= <-]. apply last_filter_Some in E as [Hk Hin].
  apply (range_elem range decoded k v Hperm) in Hin. eauto.
Qed.

Lemma stored_lookup_is_Some range (decoded : gmap string string) (k v : string) :
  (forall m, range m ≡ₚ map_to_list m) ->
  decoded !! k = Some v ->
  is_Some (foldl (fun h kv => Header_Set (fst kv) (snd kv) h) ∅ (range decoded)
             !! CanonicalMIMEHeaderKey k).
Proof.
  intros Hperm Hkv. rewrite foldl_Header_Set_lookup, lookup_empty.
  destruct (last _) as [kv|] eqn:E; [eauto|].
  apply (range_elem range decoded k v Hperm) in Hkv.
  now destruct (last_filter_None _ _ (k, v) E Hkv).
Qed.

Lemma stored_lookup_unique range (decoded : gmap string string) (k v : string) :
  (forall m, range m ≡ₚ map_to_list m) ->
  decoded !! k = Some v ->
  (forall k' v', decoded !! k' = Some v' ->
                 CanonicalMIMEHeaderKey k' = CanonicalMIMEHeaderKey k -> k' = k) ->
  foldl (fun h kv => Header_Set (fst kv) (snd kv) h) ∅ (range decoded)
    !! CanonicalMIMEHeaderKey k = Some [v].
Proof.
  intros Hperm Hkv Huniq.
  destruct (stored_lookup_is_Some range decoded k v Hperm Hkv) as [vs Hvs].
  destruct (stored_lookup_Some range decoded _ vs Hperm Hvs) as (k' & v' & Hkv' & Hc & ->).
  rewrite Hvs. rewrite (Huniq k' v' Hkv' Hc) in Hkv'. congruence.
Qed.

(** X10: the headers of the response to a found record are the decoded
    stored headers under their canonical names, and [Content-Type]: a name
    is present exactly when it is [Content-Type] or the canonical form of a
    decoded key, each with a single value; a decoded pair whose canonical
    name no other decoded key shares arrives with its value (unless it is
    an empty [Content-Type]); and a record without decoded headers is
    answered with [Content-Type: application/json] and nothing else. *)
Theorem decoded_headers_reach_the_response range (mockResp : MockResponse) :
  (forall m, range m ≡ₚ map_to_list m) ->
  let decoded := parseHeaders (Headers mockResp) in
  let hdr := header (writeResponse range fresh_writer mockResp) in
  (forall c, is_Some (hdr !! c) <->
             c = "Content-Type"
             \/ exists k v, decoded !! k = Some v /\ CanonicalMIMEHeaderKey k = c)
  /\ (forall c vs, hdr !! c = Some vs -> exists v, vs = [v])
  /\ (forall k v, decoded !! k = Some v ->
        (forall k' v', decoded !! k' = Some v' ->
                       CanonicalMIMEHeaderKey k' = CanonicalMIMEHeaderKey k -> k' = k) ->
        CanonicalMIMEHeaderKey k <> "Content-Type" \/ v <> "" ->
        hdr !! CanonicalMIMEHeaderKey k = Some [v])
  /\ (decoded = ∅ -> hdr = {[ "Content-Type" := ["application/json"] ]}).
Proof.
  intros Hperm decoded hdr. subst hdr.
  rewrite writeResponse_header. cbv zeta. fold decoded. cbn [header fresh_writer].
  set (stored := foldl (fun h kv => Header_Set (fst kv) (snd kv) h) ∅ (range decoded)).
  rewrite Header_Get_content_type.
  split.
  { intros c. destruct (String.eqb_spec
                          (match stored !! "Content-Type" with
                           | Some (v :: _) => v | _ => "" end) "") as [E|E].
    - split.
      + destruct (decide (c = "Content-Type")) as [->|Hc]; [auto|].
        rewrite lookup_insert_ne by congruence. intros [vs Hvs].
        destruct (stored_lookup_Some range decoded c vs Hperm Hvs)
          as (k & v & ? & ? & _). eauto.
      + intros [-> | (k & v & Hkv & <-)]; [rewrite lookup_insert_eq; eauto|].
        destruct (decide (CanonicalMIMEHeaderKey k = "Content-Type")) as [->|Hc];
          [rewrite lookup_insert_eq; eauto|].
        rewrite lookup_insert_ne by congruence.
        now apply (stored_lookup_is_Some range decoded k v).
    - split.
      + intros [vs Hvs].
        destruct (stored_lookup_Some range decoded c vs Hperm Hvs)
          as (k & v & ? & ? & _). eauto.
      + intros [-> | (k & v & Hkv & <-)].
        * destruct (stored !! "Content-Type") as [[|v vs]|]; [now destruct E|eauto|now destruct E].
        * now apply (stored_lookup_is_Some range decoded k v). }
  split.
  { intros c vs. destruct (String.eqb _ "").
    - destruct (decide (c = "Content-Type")) as [->|Hc].
      + rewrite lookup_insert_eq. intros [= <-]. eauto.
      + rewrite lookup_insert_ne by congruence. intros Hvs.
        destruct (stored_lookup_Some range decoded c vs Hperm Hvs)
          as (k & v & _ & _ & ->). eauto.
    - intros Hvs.
      destruct (stored_lookup_Some range decoded c vs Hperm Hvs)
        as (k & v & _ & _ & ->). eauto. }
  split.
  { intros k v Hkv Huniq Hor.
    pose proof (stored_lookup_unique range decoded k v Hperm Hkv Huniq) as Hs.
    fold stored in Hs.
    destruct (decide (CanonicalMIMEHeaderKey k = "Content-Type")) as [Hc|Hc].
    - rewrite Hc in *. rewrite Hs.
      destruct Hor as [Hor|Hv]; [now destruct Hor|].
      now rewrite (eqb_empty_false _ Hv).
    - destruct (String.eqb _ ""); [|exact Hs].
      now rewrite lookup_insert_ne by congruence. }
  intros Hempty.
  assert (Hl : range decoded = []).
  { apply Permutation_nil_r. rewrite (Hperm decoded), Hempty.
    now rewrite map_to_list_empty. }
  subst stored. rewrite Hl. cbn. reflexivity.
Qed.

Lemma decoded_headers_reach_the_response_witness :
  let mockResp :=
    mkMockResponse "{}" 201
      (mkNullString "Content-Type=application/json;location=/api/users/124" true) in
  let decoded := parseHeaders (Headers mockResp) in
  let hdr := header (writeResponse sample_range fresh_writer mockResp) in
  (forall c, is_Some (hdr !! c) <->
             c = "Content-Type"
             \/ exists k v, decoded !! k = Some v /\ CanonicalMIMEHeaderKey k = c)
  /\ (forall c vs, hdr !! c = Some vs -> exists v, vs = [v])
  /\ (forall k v, decoded !! k = Some v ->
        (forall k' v', decoded !! k' = Some v' ->
                       CanonicalMIMEHeaderKey k' = CanonicalMIMEHeaderKey k -> k' = k) ->
        CanonicalMIMEHeaderKey k <> "Content-Type" \/ v <> "" ->
        hdr !! CanonicalMIMEHeaderKey k = Some [v])
  /\ (decoded = ∅ -> hdr = {[ "Content-Type" := ["application/json"] ]}).
Proof.
  exact (decoded_headers_reach_the_response sample_range
           (mkMockResponse "{}" 201
              (mkNullString "Content-Type=application/json;location=/api/users/124" true))
           (fun m => reflexivity (map_to_list m))).
Defined.

(** X11: when no two decoded headers of a record name the same header field
    (their canonical names are pairwise different), the response written
    for the record does not depend on the order in which the map of decoded
    headers is visited. *)
Theorem response_independent_of_iteration_order range1 range2
    (w : ResponseWriter) (mockResp : MockResponse) :
  (forall m, range1 m ≡ₚ map_to_list m) ->
  (forall m, range2 m ≡ₚ map_to_list m) ->
  distinct_fields (parseHeaders (Headers mockResp)) ->
  writeResponse range1 w mockResp = writeResponse range2 w mockResp.
Proof.
  intros Hp1 Hp2 Hd. unfold writeResponse.
  now rewrite (apply_headers_any_order range1 range2 _ w Hp1 Hp2 Hd).
Qed.

Lemma response_independent_of_iteration_order_witness :
  writeResponse sample_range fresh_writer
    (mkMockResponse "{}" 200 (mkNullString "X-Test=1;Cache-Control=no-cache" true))
  = writeResponse (fun m => reverse (map_to_list m)) fresh_writer
      (mkMockResponse "{}" 200 (mkNullString "X-Test=1;Cache-Control=no-cache" true)).
Proof.
  refine (response_independent_of_iteration_order sample_range
            (fun m => reverse (map_to_list m)) fresh_writer
            (mkMockResponse "{}" 200 (mkNullString "X-Test=1;Cache-Control=no-cache" true))
            (fun m => reflexivity (map_to_list m))
            (fun m => reverse_Permutation (map_to_list m)) _).
  intros k1 k2 v1 v2 H1 H2 Hc.
  assert (D : dom (parseHeaders (mkNullString "X-Test=1;Cache-Control=no-cache" true))
              = {[ "X-Test"; "Cache-Control" ]}) by (vm_compute; reflexivity).
  assert (I1 : k1 ∈ ({[ "X-Test"; "Cache-Control" ]} : gset string))
    by (rewrite <- D; apply elem_of_dom; eauto).
  assert (I2 : k2 ∈ ({[ "X-Test"; "Cache-Control" ]} : gset string))
    by (rewrite <- D; apply elem_of_dom; eauto).
  apply elem_of_union in I1 as [->%elem_of_singleton | ->%elem_of_singleton];
    apply elem_of_union in I2 as [->%elem_of_singleton | ->%elem_of_singleton];
    first [reflexivity | vm_compute in Hc; discriminate Hc].
Defined.

(** ** More on the header codec *)

Lemma Split_app_sep (sep : ascii) (a b : string) :
  Split sep (a ++ String sep b) = (Split sep a ++ Split sep b)%list.
Proof.
  induction a as [|c a IH].
  - change (Split sep (String sep b) = ([""] ++ Split sep b)%list).
    cbn [Split]. now rewrite Ascii.eqb_refl.
  - rewrite string_app_cons. cbn [Split]. rewrite IH.
    destruct (Ascii.eqb c sep); [reflexivity|].
    pose proof (Split_not_nil sep a) as Hne.
    now destruct (Split sep a).
Qed.

Lemma foldl_parse_pair_union (segs : list string) (m : gmap string string) :
  foldl parse_pair m segs = foldl parse_pair ∅ segs ∪ m.
Proof.
  apply map_eq. intros k.
  rewrite (foldl_parse_pair segs m), (foldl_parse_pair segs ∅).
  rewrite foldl_insert_lookup.
  destruct (last _) as [kv|] eqn:E.
  - symmetry. apply lookup_union_Some_l. now rewrite foldl_insert_lookup, E.
  - rewrite lookup_union_r; [reflexivity|]. now rewrite foldl_insert_lookup, E.
Qed.

(** X12: decoding composes over [;]: the headers decoded from [a;b] are
    those decoded from [b], completed by those decoded from [a] for the keys
    [b] does not give.  Both versions of [parseHeaders] behave so. *)
Theorem parseHeaders_of_joined_lists (a b : string) :
  parseHeaders (mkNullString (a ++ ";" ++ b) true)
  = parseHeaders (mkNullString b true) ∪ parseHeaders (mkNullString a true)
  /\ MainGo.parseHeaders (a ++ ";" ++ b)
     = MainGo.parseHeaders b ∪ MainGo.parseHeaders a.
Proof.
  assert (H : parseHeaders (mkNullString (a ++ ";" ++ b) true)
              = parseHeaders (mkNullString b true) ∪ parseHeaders (mkNullString a true)).
  { rewrite !parseHeaders_valid.
    change (a ++ ";" ++ b) with (a ++ String ";" b).
    rewrite Split_app_sep, foldl_app. apply foldl_parse_pair_union. }
  split; [exact H|]. now rewrite !MainGo_parseHeaders_eq.
Qed.

Lemma string_length_ind (P : string -> Prop) :
  (forall s, (forall t, (String.length t < String.length s)%nat -> P t) -> P s) ->
  forall s, P s.
Proof.
  intros Hstep s.
  assert (H : forall n t, (String.length t < n)%nat -> P t).
  { induction n as [|n IH]; intros t Ht; [lia|].
    apply Hstep. intros u Hu. apply IH. lia. }
  apply (H (S (String.length s))). lia.
Qed.

Lemma TrimLeftSpace_cons (a : ascii) (r1 : string) :
  TrimLeftSpace (String a r1)
  = if asciiSpace a then TrimLeftSpace r1
    else match r1 with
         | EmptyString => String a r1
         | String b r2 =>
             if space2 a b then TrimLeftSpace r2
             else match r2 with
                  | EmptyString => String a r1
                  | String c r3 =>
                      if space3 a b c then TrimLeftSpace r3 else String a r1
                  end
         end.
Proof. reflexivity. Qed.

Lemma TrimLeftSpaceRev_cons (a : ascii) (r1 : string) :
  TrimLeftSpaceRev (String a r1)
  = if asciiSpace a then TrimLeftSpaceRev r1
    else match r1 with
         | EmptyString => String a r1
         | String b r2 =>
             if space2 b a then TrimLeftSpaceRev r2
             else match r2 with
                  | EmptyString => String a r1
                  | String c r3 =>
                      if space3 c b a then TrimLeftSpaceRev r3 else String a r1
                  end
         end.
Proof. reflexivity. Qed.

Ltac has_byte_step IH :=
  let H := fresh "H" in
  intros H; apply IH in H; [|cbn [String.length]; lia];
  cbn [has_byte]; rewrite ?orb_true_iff; tauto.

Lemma has_byte_TrimLeftSpace (c : ascii) (s : string) :
  has_byte c (TrimLeftSpace s) = true -> has_byte c s = true.
Proof.
  induction s as [s IH] using string_length_ind.
  destruct s as [|a r1]; [auto|]. rewrite TrimLeftSpace_cons.
  destruct (asciiSpace a); [has_byte_step IH|].
  destruct r1 as [|b r2]; [auto|].
  destruct (space2 a b); [has_byte_step IH|].
  destruct r2 as [|d r3]; [auto|].
  destruct (space3 a b d); [has_byte_step IH|auto].
Qed.

Lemma has_byte_TrimLeftSpaceRev (c : ascii) (s : string) :
  has_byte c (TrimLeftSpaceRev s) = true -> has_byte c s = true.
Proof.
  induction s as [s IH] using string_length_ind.
  destruct s as [|a r1]; [auto|]. rewrite TrimLeftSpaceRev_cons.
  destruct (asciiSpace a); [has_byte_step IH|].
  destruct r1 as [|b r2]; [auto|].
  destruct (space2 b a); [has_byte_step IH|].
  destruct r2 as [|d r3]; [auto|].
  destruct (space3 d b a); [has_byte_step IH|auto].
Qed.

Lemma has_byte_rev_app (c : ascii) (s t : string) :
  has_byte c (String.rev_app s t) = (has_byte c s || has_byte c t)%bool.
Proof.
  revert t. induction s as [|a s IH]; intros t; [reflexivity|].
  cbn [String.rev_app has_byte]. rewrite IH. cbn [has_byte].
  destruct (Ascii.eqb a c), (has_byte c s); reflexivity.
Qed.

Lemma has_byte_rev (c : ascii) (s : string) :
  has_byte c (String.rev s) = has_byte c s.
Proof. unfold String.rev. rewrite has_byte_rev_app. cbn. apply orb_false_r. Qed.

Lemma has_byte_TrimSpace (c : ascii) (s : string) :
  has_byte c (TrimSpace s) = true -> has_byte c s = true.
Proof.
  unfold TrimSpace, TrimRightSpace. rewrite has_byte_rev. intros H.
  apply has_byte_TrimLeftSpaceRev in H. rewrite has_byte_rev in H.
  now apply has_byte_TrimLeftSpace.
Qed.

Lemma Split_pieces_without_sep (sep : ascii) (s piece : string) :
  piece ∈ Split sep s -> has_byte sep piece = false.
Proof.
  revert piece. induction s as [|c s IH]; intros piece; cbn [Split].
  - intros ->%list_elem_of_singleton. reflexivity.
  - destruct (Ascii.eqb c sep) eqn:Ec.
    + intros [-> | H]%elem_of_cons; [reflexivity | now apply IH].
    + pose proof (Split_not_nil sep s) as Hne.
      destruct (Split sep s) as [|h t]; [now destruct Hne|].
      intros [-> | H]%elem_of_cons.
      * cbn [has_byte]. rewrite Ec. apply IH. now left.
      * apply IH. now right.
Qed.

Lemma cut_parts (sep c : ascii) (s a b : string) :
  cut sep s = Some (a, b) ->
  has_byte sep a = false
  /\ (has_byte c a = true -> has_byte c s = true)
  /\ (has_byte c b = true -> has_byte c s = true).
Proof.
  revert a. induction s as [|x s IH]; intros a; cbn [cut]; [discriminate|].
  destruct (Ascii.eqb x sep) eqn:Ex.
  - intros [= <- <-]. cbn [has_byte]. repeat split; [discriminate|].
    intros ->. apply orb_true_r.
  - destruct (cut sep s) as [[a' b']|]; [|discriminate].
    intros [= <- <-]. destruct (IH a' eq_refl) as (H1 & H2 & H3).
    cbn [has_byte]. rewrite Ex, H1. repeat split.
    + rewrite !orb_true_iff. tauto.
    + intros H. rewrite (H3 H). apply orb_true_r.
Qed.

Lemma parseHeaders_lookup_origin (headerStr : NullString) (k v : string) :
  parseHeaders headerStr !! k = Some v ->
  exists seg k0 v0,
    seg ∈ Split ";" (NS_String headerStr)
    /\ cut "=" (TrimSpace seg) = Some (k0, v0)
    /\ k = TrimSpace k0 /\ v = TrimSpace v0.
Proof.
  unfold parseHeaders. destruct (_ || _)%bool; [now rewrite lookup_empty|].
  rewrite foldl_parse_pair, foldl_insert_lookup, lookup_empty.
  destruct (last _) as [[k' v']|] eqn:E; [|discriminate].
  intros [= <-]. apply last_filter_Some in E as [Hk Hin]. cbn [fst snd] in *.
  subst k'. apply list_elem_of_omap in Hin as (seg' & Hseg & Hcut).
  apply list_elem_of_filter in Hseg as [_ Hseg].
  apply list_elem_of_fmap in Hseg as (seg & -> & Hseg).
  destruct (cut "=" (TrimSpace seg)) as [[k0 v0]|] eqn:Ec; [|discriminate].
  injection Hcut as <- <-. exists seg, k0, v0. auto.
Qed.

(** X13: a decoded header key never holds [=] or [;], and a decoded value
    never holds [;] (it may hold [=]): such keys and values cannot be stored
    in the serialized form. *)
Theorem decoded_headers_hold_no_separator (headerStr : NullString) (k v : string) :
  parseHeaders headerStr !! k = Some v ->
  has_byte "=" k = false /\ has_byte ";" k = false /\ has_byte ";" v = false.
Proof.
  intros H. apply parseHeaders_lookup_origin in H
    as (seg & k0 & v0 & Hseg & Hcut & -> & ->).
  apply Split_pieces_without_sep in Hseg.
  assert (Hts : has_byte ";" (TrimSpace seg) = false).
  { destruct (has_byte ";" (TrimSpace seg)) eqn:E; [|reflexivity].
    apply has_byte_TrimSpace in E. congruence. }
  destruct (cut_parts "=" ";" _ _ _ Hcut) as (H1 & H2 & H3).
  repeat split.
  - destruct (has_byte "=" (TrimSpace k0)) eqn:E; [|reflexivity].
    apply has_byte_TrimSpace in E. congruence.
  - destruct (has_byte ";" (TrimSpace k0)) eqn:E; [|reflexivity].
    apply has_byte_TrimSpace, H2 in E. congruence.
  - destruct (has_byte ";" (TrimSpace v0)) eqn:E; [|reflexivity].
    apply has_byte_TrimSpace, H3 in E. congruence.
Qed.

Lemma decoded_headers_hold_no_separator_witness :
  has_byte "=" "A" = false /\ has_byte ";" "A" = false /\ has_byte ";" "x=y" = false.
Proof.
  refine (decoded_headers_hold_no_separator (mkNullString " A = x=y ; B" true) "A" "x=y" _).
  vm_compute. reflexivity.
Defined.

Lemma rev_app_append (s t : string) : String.rev_app s t = String.rev s ++ t.
Proof.
  unfold String.rev. revert t. induction s as [|a s IH]; intros t; [reflexivity|].
  cbn [String.rev_app]. rewrite (IH (String a t)), (IH (String a "")).
  clear IH. induction (String.rev_app s "") as [|x r IHr]; [reflexivity|].
  rewrite !string_app_cons. now rewrite IHr.
Qed.

Lemma string_app_assoc (a b c : string) : (a ++ b) ++ c = a ++ (b ++ c).
Proof.
  induction a as [|x a IH]; [reflexivity|].
  rewrite !string_app_cons. now rewrite IH.
Qed.

Lemma string_app_empty_r (a : string) : a ++ "" = a.
Proof.
  induction a as [|x a IH]; [reflexivity|]. now rewrite string_app_cons, IH.
Qed.

Lemma rev_append (s t : string) : String.rev (s ++ t) = String.rev t ++ String.rev s.
Proof.
  induction s as [|a s IH].
  - change ("" ++ t) with t. now rewrite string_app_empty_r.
  - rewrite string_app_cons. unfold String.rev at 1 3. cbn [String.rev_app].
    rewrite !rev_app_append, IH. apply string_app_assoc.
Qed.

Lemma rev_involutive (s : string) : String.rev (String.rev s) = s.
Proof.
  induction s as [|a s IH]; [reflexivity|].
  unfold String.rev at 2. cbn [String.rev_app].
  rewrite rev_app_append, rev_append, IH. reflexivity.
Qed.

Lemma TrimLeftSpace_fixed (s : string) : starts_space s = false -> TrimLeftSpace s = s.
Proof.
  destruct s as [|a [|b [|c r]]]; [reflexivity|..]; rewrite TrimLeftSpace_cons;
    cbn [starts_space]; destruct (asciiSpace a); try discriminate;
    try (destruct (space2 a b); try discriminate);
    try (destruct (space3 a b c); try discriminate); reflexivity.
Qed.

Lemma TrimLeftSpace_not_space (s : string) : starts_space (TrimLeftSpace s) = false.
Proof.
  induction s as [s IH] using string_length_ind.
  destruct s as [|a r1]; [reflexivity|]. rewrite TrimLeftSpace_cons.
  destruct (asciiSpace a) eqn:Ea; [apply IH; cbn; lia|].
  destruct r1 as [|b r2]; [cbn; now rewrite Ea|].
  destruct (space2 a b) eqn:Eb; [apply IH; cbn; lia|].
  destruct r2 as [|c r3]; [cbn; now rewrite Ea, Eb|].
  destruct (space3 a b c) eqn:Ec; [apply IH; cbn; lia|].
  cbn. now rewrite Ea, Eb, Ec.
Qed.

Lemma TrimLeftSpaceRev_fixed (s : string) :
  ends_space (String.rev s) = false -> TrimLeftSpaceRev s = s.
Proof.
  unfold ends_space. rewrite rev_involutive.
  destruct s as [|a [|b [|c r]]]; [reflexivity|..]; rewrite TrimLeftSpaceRev_cons;
    destruct (asciiSpace a); try discriminate;
    try (destruct (space2 b a); try discriminate);
    try (destruct (space3 c b a); try discriminate); reflexivity.
Qed.

Lemma TrimLeftSpaceRev_not_space (s : string) :
  ends_space (String.rev (TrimLeftSpaceRev s)) = false.
Proof.
  unfold ends_space. rewrite rev_involutive.
  induction s as [s IH] using string_length_ind.
  destruct s as [|a r1]; [reflexivity|]. rewrite TrimLeftSpaceRev_cons.
  destruct (asciiSpace a) eqn:Ea; [apply IH; cbn; lia|].
  destruct r1 as [|b r2]; [now rewrite Ea|].
  destruct (space2 b a) eqn:Eb; [apply IH; cbn; lia|].
  destruct r2 as [|c r3]; [now rewrite Ea, Eb|].
  destruct (space3 c b a) eqn:Ec; [apply IH; cbn; lia|].
  now rewrite Ea, Eb, Ec.
Qed.

Lemma TrimLeftSpaceRev_suffix (s : string) : exists p, s = p ++ TrimLeftSpaceRev s.
Proof.
  induction s as [s IH] using string_length_ind.
  destruct s as [|a r1]; [now exists ""|]. rewrite TrimLeftSpaceRev_cons.
  destruct (asciiSpace a).
  { destruct (IH r1) as [p Hp]; [cbn; lia|].
    exists (String a p). rewrite string_app_cons. now rewrite <- Hp. }
  destruct r1 as [|b r2]; [now exists ""|].
  destruct (space2 b a).
  { destruct (IH r2) as [p Hp]; [cbn; lia|].
    exists (String a (String b p)). rewrite !string_app_cons. now rewrite <- Hp. }
  destruct r2 as [|c r3]; [now exists ""|].
  destruct (space3 c b a); [|now exists ""].
  destruct (IH r3) as [p Hp]; [cbn; lia|].
  exists (String a (String b (String c p))). rewrite !string_app_cons. now rewrite <- Hp.
Qed.

Lemma starts_space_prefix (p q : string) :
  starts_space p = true -> starts_space (p ++ q) = true.
Proof.
  destruct p as [|a [|b [|c r]]]; [discriminate|..];
    rewrite ?string_app_cons; cbn [starts_space];
    destruct (asciiSpace a); try reflexivity;
    try (destruct (space2 a b); try reflexivity); cbn; try discriminate; auto.
Qed.

Lemma TrimSpace_trimmed (s : string) :
  starts_space (TrimSpace s) = false /\ ends_space (TrimSpace s) = false.
Proof.
  unfold TrimSpace, TrimRightSpace. split; [|apply TrimLeftSpaceRev_not_space].
  destruct (TrimLeftSpaceRev_suffix (String.rev (TrimLeftSpace s))) as [p Hp].
  apply (f_equal String.rev) in Hp. rewrite rev_involutive, rev_append in Hp.
  destruct (starts_space (String.rev (TrimLeftSpaceRev (String.rev (TrimLeftSpace s)))))
    eqn:E; [|reflexivity].
  apply (starts_space_prefix _ (String.rev p)) in E. rewrite <- Hp in E.
  now rewrite TrimLeftSpace_not_space in E.
Qed.

Lemma TrimSpace_fixed (s : string) :
  starts_space s = false -> ends_space s = false -> TrimSpace s = s.
Proof.
  intros Hs He. unfold TrimSpace, TrimRightSpace.
  rewrite (TrimLeftSpace_fixed s Hs), TrimLeftSpaceRev_fixed
    by (now rewrite rev_involutive).
  apply rev_involutive.
Qed.

(** X14: decoded header keys and values carry no white space at either
    end (in the sense of [strings.TrimSpace]: none of the Unicode white-space
    runes), so trimming them again changes nothing. *)
Theorem decoded_headers_are_trimmed (headerStr : NullString) (k v : string) :
  parseHeaders headerStr !! k = Some v ->
  starts_space k = false /\ ends_space k = false
  /\ starts_space v = false /\ ends_space v = false
  /\ TrimSpace k = k /\ TrimSpace v = v.
Proof.
  intros H. apply parseHeaders_lookup_origin in H
    as (seg & k0 & v0 & _ & _ & -> & ->).
  destruct (TrimSpace_trimmed k0) as [K1 K2].
  destruct (TrimSpace_trimmed v0) as [V1 V2].
  repeat split; try assumption; now apply TrimSpace_fixed.
Qed.

Lemma decoded_headers_are_trimmed_witness :
  starts_space "A" = false /\ ends_space "A" = false
  /\ starts_space "x y" = false /\ ends_space "x y" = false
  /\ TrimSpace "A" = "A" /\ TrimSpace "x y" = "x y".
Proof.
  refine (decoded_headers_are_trimmed (mkNullString "  A  =  x y  ; B" true) "A" "x y" _).
  vm_compute. reflexivity.
Defined.

(** ** A body that cannot be read *)

(** X15: when reading the body fails, the bytes read so far are dropped and
    the handler answers 400 with the fixed text [Error reading request
    body]; the cause goes to the log only, the store is not asked, and the
    body of the request is left as the failed read left it (it is not
    replaced by a buffer). *)
Theorem unreadable_body_is_answered_400 range (conn : DB) (w : ResponseWriter)
    (r : Request) (rd : Reader) (e : string) :
  wroteHeader w = None -> Body r = Some rd -> failure rd = Some e ->
  let h := proxyHandler range conn w r in
  fst (fst (readRequestBody r)) = ""
  /\ response h = Error "Error reading request body" StatusBadRequest w
  /\ wroteHeader (response h) = Some StatusBadRequest
  /\ written (response h) = written w ++ "Error reading request body" ++ newline
  /\ round_trips h = []
  /\ log h = ["Error reading request body: error reading request body: " ++ e]
  /\ Body (request h) = Some (mkReader "" (Some e)).
Proof.
  intros Hw HB Hf h. subst h.
  unfold proxyHandler, readRequestBody, ReadAll. rewrite HB, Hf.
  cbn -[Error written wroteHeader String.append].
  rewrite written_Error by reflexivity.
  rewrite wroteHeader_Error by first [exact Hw | reflexivity].
  repeat split.
Qed.

Lemma unreadable_body_is_answered_400_witness :
  let h := proxyHandler sample_range empty_db fresh_writer broken_upload in
  fst (fst (readRequestBody broken_upload)) = ""
  /\ response h = Error "Error reading request body" StatusBadRequest fresh_writer
  /\ wroteHeader (response h) = Some StatusBadRequest
  /\ written (response h)
     = written fresh_writer ++ "Error reading request body" ++ newline
  /\ round_trips h = []
  /\ log h = ["Error reading request body: error reading request body: "
              ++ "unexpected EOF"]
  /\ Body (request h) = Some (mkReader "" (Some "unexpected EOF")).
Proof.
  exact (unreadable_body_is_answered_400 sample_range empty_db fresh_writer
           broken_upload (mkReader "{" (Some "unexpected EOF")) "unexpected EOF"
           eq_refl eq_refl eq_refl).
Defined.

(** ** A row that does not scan *)


